(** * Feature toggle platform: models, evaluation engine and flag repository

    A shallow embedding of the JavaScript sources
    - [src/models/index.js]                       (rules, flags, contexts, results),
    - [src/services/FeatureEvaluationEngine.js]   (the decision procedure),
    - [src/repositories/FeatureFlagRepository.js] (the dual-key in-memory store),
    - [src/controllers/FeatureFlagController.js]  (the handlers that call them),
    followed by the properties the specification states about them and by
    further properties read off the code.

    Conventions of the embedding.
    - A JavaScript call either returns or throws: [Completion].
    - [undefined]/[null] arguments and missing fields are [None].
    - Strings are [string]; [charCodeAt] is the character code, and
      [toLowerCase] is that of ASCII text.
    - The percentage of a rule is an integer ([Z]), as in the data model.
    - [Date.now()] and [new Date()] are inputs of the operation that reads
      the clock.
    - The logger is an external collaborator that never throws; what a call
      to it can still do is throw while its argument object is built
      (a property read on [null]); that part is kept.
    - The repository methods are [async] without any [await]: their bodies
      run to completion, and a rejected promise is a [Throw]. *)

From Stdlib Require Import ZArith Ascii String List Lia Bool.
From stdpp Require Import base decidable option list gmap strings.

Local Open Scope string_scope.
Local Open Scope list_scope.
Local Open Scope Z_scope.

(** ** Completions: normal return or thrown error *)

Inductive Completion (A : Type) : Type :=
| Normal (value : A)
| Throw (error : string).
Arguments Normal {A} value.
Arguments Throw {A} error.

#[global] Instance Completion_ret : MRet Completion := fun _ x => Normal x.
#[global] Instance Completion_bind : MBind Completion := fun _ _ k c =>
  match c with
  | Normal x => k x
  | Throw e => Throw e
  end.

(** [try { body } catch (error) { handler }] *)
Definition try_catch {A} (body : Completion A) (handler : string -> Completion A)
  : Completion A :=
  match body with
  | Normal x => Normal x
  | Throw e => handler e
  end.

(** Reading a property of [o]: a [TypeError] when [o] is [null] or
    [undefined]. *)
Definition deref {A} (o : option A) : Completion A :=
  match o with
  | Some x => Normal x
  | None => Throw "TypeError: Cannot read properties of null"
  end.

(** JavaScript truthiness of a value that is a string or [undefined]. *)
Definition truthy (s : option string) : bool :=
  match s with
  | Some s => negb (String.eqb s "")
  | None => false
  end.

(** Template-literal conversion of a string or [undefined]. *)
Definition to_string (s : option string) : string :=
  match s with
  | Some s => s
  | None => "undefined"
  end.

(** [Array.prototype.includes] on an array of strings. *)
Definition Array_includes (l : list string) (x : option string) : bool :=
  match x with
  | Some s => existsb (String.eqb s) l
  | None => false
  end.

(** ** 32-bit integers of the bit operators *)

(** [ToInt32]: wrap into [-2^31, 2^31). *)
Definition to_int32 (z : Z) : Z := (z + 2^31) mod 2^32 - 2^31.

(** [x << n] for [0 <= n < 32]. *)
Definition shl32 (x n : Z) : Z := to_int32 (Z.shiftl (to_int32 x) n).

(** [x & y]. *)
Definition and32 (x y : Z) : Z := to_int32 (Z.land (to_int32 x) (to_int32 y)).

Definition charCode (c : ascii) : Z := Z.of_N (N_of_ascii c).

(** ** Models *)

Module EvaluationContext.
Record t := {
  userId : option string;
  tenantId : option string;
  additionalData : list (string * string)
}.
End EvaluationContext.

Inductive RULE_TYPES := TENANT | USER | PERCENTAGE.

(** The string each member of [RULE_TYPES] stands for. *)
Definition RULE_TYPES_value (type : RULE_TYPES) : string :=
  match type with
  | TENANT => "tenant"
  | USER => "user"
  | PERCENTAGE => "percentage"
  end.

(** [s || alt] for a string or [undefined]. *)
Definition string_or (s : option string) (alt : string) : string :=
  if truthy s then to_string s else alt.

(** The plain object a rule is written to and read from. A key that is
    absent or [undefined] is [None]. Dates are timestamps; a date that is
    present is truthy. *)
Module RuleData.
Record t := {
  id : option string;
  type : option string;
  enabled : option bool;
  createdAt : option Z;
  tenantIds : option (list string);
  userIds : option (list string);
  percentage : option Z
}.

(** [data.enabled !== false] *)
Definition enabled_not_false (data : t) : bool :=
  match enabled data with
  | Some false => false
  | _ => true
  end.
End RuleData.

(** The base class [Rule]: [evaluate] is abstract. *)
Module BaseRule.
Record t := {
  id : string;
  type : option RULE_TYPES;
  enabled : bool;
  createdAt : Z
}.

Definition evaluate (this : t) (context : EvaluationContext.t) : Completion bool :=
  Throw "evaluate() must be implemented by subclasses".

Definition toJSON (this : t) : RuleData.t :=
  {| RuleData.id := Some (id this);
     RuleData.type := RULE_TYPES_value <$> type this;
     RuleData.enabled := Some (enabled this);
     RuleData.createdAt := Some (createdAt this);
     RuleData.tenantIds := None;
     RuleData.userIds := None;
     RuleData.percentage := None |}.
End BaseRule.

Module TenantRule.
Record t := {
  id : string;
  tenantIds : list string;
  enabled : bool;
  createdAt : Z
}.

Definition evaluate (this : t) (context : EvaluationContext.t) : bool :=
  if negb (enabled this) then false
  else Array_includes (tenantIds this) (EvaluationContext.tenantId context).

(** [{...super.toJSON(), tenantIds: this.tenantIds}] *)
Definition toJSON (this : t) : RuleData.t :=
  {| RuleData.id := Some (id this);
     RuleData.type := Some (RULE_TYPES_value TENANT);
     RuleData.enabled := Some (enabled this);
     RuleData.createdAt := Some (createdAt this);
     RuleData.tenantIds := Some (tenantIds this);
     RuleData.userIds := None;
     RuleData.percentage := None |}.

(** [uuid] is what [uuidv4()] returns and [now] what [new Date()] returns
    if they are called. *)
Definition fromJSON (data : RuleData.t) (uuid : string) (now : Z) : t :=
  {| id := string_or (RuleData.id data) uuid;
     tenantIds := default [] (RuleData.tenantIds data);
     enabled := RuleData.enabled_not_false data;
     createdAt := default now (RuleData.createdAt data) |}.
End TenantRule.

Module UserRule.
Record t := {
  id : string;
  userIds : list string;
  enabled : bool;
  createdAt : Z
}.

Definition evaluate (this : t) (context : EvaluationContext.t) : bool :=
  if negb (enabled this) then false
  else Array_includes (userIds this) (EvaluationContext.userId context).

Definition toJSON (this : t) : RuleData.t :=
  {| RuleData.id := Some (id this);
     RuleData.type := Some (RULE_TYPES_value USER);
     RuleData.enabled := Some (enabled this);
     RuleData.createdAt := Some (createdAt this);
     RuleData.tenantIds := None;
     RuleData.userIds := Some (userIds this);
     RuleData.percentage := None |}.

Definition fromJSON (data : RuleData.t) (uuid : string) (now : Z) : t :=
  {| id := string_or (RuleData.id data) uuid;
     userIds := default [] (RuleData.userIds data);
     enabled := RuleData.enabled_not_false data;
     createdAt := default now (RuleData.createdAt data) |}.
End UserRule.

Module PercentageRule.
Record t := {
  id : string;
  percentage : Z;
  enabled : bool;
  createdAt : Z
}.

(** [this.percentage = Math.max(0, Math.min(100, percentage))] *)
Definition new (id : string) (percentage : Z) (enabled : bool) (createdAt : Z) : t :=
  {| id := id;
     percentage := Z.max 0 (Z.min 100 percentage);
     enabled := enabled;
     createdAt := createdAt |}.

(** One round of the loop body:
    [hash = ((hash << 5) - hash) + char; hash = hash & hash]. *)
Definition _hash_step (hash : Z) (c : ascii) : Z :=
  let hash := (shl32 hash 5 - hash) + charCode c in
  and32 hash hash.

Fixpoint _hash_loop (str : string) (hash : Z) : Z :=
  match str with
  | EmptyString => hash
  | String c rest => _hash_loop rest (_hash_step hash c)
  end.

Definition _hash (str : string) : Z := Z.abs (_hash_loop str 0).

Definition bucket_of (context : EvaluationContext.t) : Z :=
  let hash := _hash (to_string (EvaluationContext.userId context) +:+ ":"
                     +:+ to_string (EvaluationContext.tenantId context)) in
  Z.rem hash 100.

Definition evaluate (this : t) (context : EvaluationContext.t) : bool :=
  if negb (enabled this) || (percentage this =? 0) then false
  else if percentage this =? 100 then true
  else bucket_of context <? percentage this.

Definition toJSON (this : t) : RuleData.t :=
  {| RuleData.id := Some (id this);
     RuleData.type := Some (RULE_TYPES_value PERCENTAGE);
     RuleData.enabled := Some (enabled this);
     RuleData.createdAt := Some (createdAt this);
     RuleData.tenantIds := None;
     RuleData.userIds := None;
     RuleData.percentage := Some (percentage this) |}.

(** [percentage: data.percentage || 0], then the constructor. *)
Definition fromJSON (data : RuleData.t) (uuid : string) (now : Z) : t :=
  new (string_or (RuleData.id data) uuid)
      (default 0 (RuleData.percentage data))
      (RuleData.enabled_not_false data)
      (default now (RuleData.createdAt data)).
End PercentageRule.

Module Rule.
Inductive t :=
| Base (r : BaseRule.t)
| Tenant (r : TenantRule.t)
| User (r : UserRule.t)
| Percentage (r : PercentageRule.t).

Definition enabled (rule : t) : bool :=
  match rule with
  | Base r => BaseRule.enabled r
  | Tenant r => TenantRule.enabled r
  | User r => UserRule.enabled r
  | Percentage r => PercentageRule.enabled r
  end.

(** Dynamic dispatch of [rule.evaluate(context)]. *)
Definition evaluate (rule : t) (context : EvaluationContext.t) : Completion bool :=
  match rule with
  | Base r => BaseRule.evaluate r context
  | Tenant r => Normal (TenantRule.evaluate r context)
  | User r => Normal (UserRule.evaluate r context)
  | Percentage r => Normal (PercentageRule.evaluate r context)
  end.

(** The three concrete variants. *)
Definition concrete (rule : t) : bool :=
  match rule with
  | Base _ => false
  | _ => true
  end.

Definition id (rule : t) : string :=
  match rule with
  | Base r => BaseRule.id r
  | Tenant r => TenantRule.id r
  | User r => UserRule.id r
  | Percentage r => PercentageRule.id r
  end.

(** Dynamic dispatch of [rule.toJSON()]. *)
Definition toJSON (rule : t) : RuleData.t :=
  match rule with
  | Base r => BaseRule.toJSON r
  | Tenant r => TenantRule.toJSON r
  | User r => UserRule.toJSON r
  | Percentage r => PercentageRule.toJSON r
  end.

(** [static fromJSON(data)]: the [switch] on [data.type]. *)
Definition fromJSON (data : RuleData.t) (uuid : string) (now : Z) : Completion t :=
  match RuleData.type data with
  | Some type =>
    if String.eqb type (RULE_TYPES_value TENANT) then
      Normal (Tenant {| TenantRule.id := string_or (RuleData.id data) uuid;
                        TenantRule.tenantIds := default [] (RuleData.tenantIds data);
                        TenantRule.enabled := RuleData.enabled_not_false data;
                        TenantRule.createdAt := default now (RuleData.createdAt data) |})
    else if String.eqb type (RULE_TYPES_value USER) then
      Normal (User {| UserRule.id := string_or (RuleData.id data) uuid;
                      UserRule.userIds := default [] (RuleData.userIds data);
                      UserRule.enabled := RuleData.enabled_not_false data;
                      UserRule.createdAt := default now (RuleData.createdAt data) |})
    else if String.eqb type (RULE_TYPES_value PERCENTAGE) then
      Normal (Percentage
                (PercentageRule.new (string_or (RuleData.id data) uuid)
                   (default 0 (RuleData.percentage data))
                   (RuleData.enabled_not_false data)
                   (default now (RuleData.createdAt data))))
    else Throw ("Unknown rule type: " +:+ type)
  | None => Throw ("Unknown rule type: " +:+ to_string None)
  end.
End Rule.

(** The argument of [new FeatureFlag(...)] and the value of
    [flag.toJSON()]. An element of [rules] is a [Rule] instance or a plain
    object. [name] has no default; it is taken as given. *)
Module FlagData.
Inductive rule_arg :=
| Instance (rule : Rule.t)
| Plain (data : RuleData.t).

Record t := {
  id : option string;
  name : string;
  description : option string;
  enabled : option bool;
  rules : option (list rule_arg);
  createdAt : option Z;
  updatedAt : option Z
}.
End FlagData.


Module FeatureFlag.
Record t := {
  id : string;
  name : string;
  description : string;
  enabled : bool;
  rules : list Rule.t;
  createdAt : Z;
  updatedAt : Z
}.

Definition with_rules (flag : t) (rs : list Rule.t) : t :=
  {| id := id flag; name := name flag; description := description flag;
     enabled := enabled flag; rules := rs;
     createdAt := createdAt flag; updatedAt := updatedAt flag |}.

(** [rules.map(ruleData => ruleData instanceof Rule ? ruleData
    : Rule.fromJSON(ruleData))]; [fresh i] is the id and the date drawn for
    the element at index [i], if it draws them. The first element that
    throws ends the construction. *)
Fixpoint convert_rules (args : list FlagData.rule_arg) (fresh : nat -> string * Z)
    (index : nat) : Completion (list Rule.t) :=
  match args with
  | [] => Normal []
  | arg :: rest =>
    rule ← match arg with
           | FlagData.Instance rule => Normal rule
           | FlagData.Plain data =>
             Rule.fromJSON data (fst (fresh index)) (snd (fresh index))
           end;
    rules ← convert_rules rest fresh (S index);
    mret (rule :: rules)
  end.

(** The constructor. [uuid], [createdNow] and [updatedNow] are what the
    defaults of [id], [createdAt] and [updatedAt] evaluate to when used. *)
Definition new (data : FlagData.t) (uuid : string) (createdNow updatedNow : Z)
    (fresh : nat -> string * Z) : Completion t :=
  rules ← convert_rules (default [] (FlagData.rules data)) fresh 0;
  mret {| id := default uuid (FlagData.id data);
          name := FlagData.name data;
          description := default "" (FlagData.description data);
          enabled := default false (FlagData.enabled data);
          rules := rules;
          createdAt := default createdNow (FlagData.createdAt data);
          updatedAt := default updatedNow (FlagData.updatedAt data) |}.

(** [this.updatedAt = new Date()] *)
Definition with_updatedAt (flag : t) (now : Z) : t :=
  {| id := id flag; name := name flag; description := description flag;
     enabled := enabled flag; rules := rules flag;
     createdAt := createdAt flag; updatedAt := now |}.

(** [this.rules.push(rule)] *)
Definition addRule (this : t) (rule : Rule.t) (now : Z) : t :=
  with_updatedAt (with_rules this (rules this ++ [rule])) now.

(** [this.rules = this.rules.filter(rule => rule.id !== ruleId)] *)
Definition removeRule (this : t) (ruleId : string) (now : Z) : t :=
  with_updatedAt
    (with_rules this
       (List.filter (fun rule => negb (String.eqb (Rule.id rule) ruleId)) (rules this)))
    now.

Definition setEnabled (this : t) (value : bool) (now : Z) : t :=
  {| id := id this; name := name this; description := description this;
     enabled := value; rules := rules this;
     createdAt := createdAt this; updatedAt := now |}.

Definition toJSON (this : t) : FlagData.t :=
  {| FlagData.id := Some (id this);
     FlagData.name := name this;
     FlagData.description := Some (description this);
     FlagData.enabled := Some (enabled this);
     FlagData.rules := Some (map (fun rule => FlagData.Plain (Rule.toJSON rule)) (rules this));
     FlagData.createdAt := Some (createdAt this);
     FlagData.updatedAt := Some (updatedAt this) |}.

(** [static fromJSON(data)] of [FeatureFlag]: a [switch] on [data.type] that
    builds rules and does not pass [createdAt]. *)
Definition fromJSON (data : RuleData.t) (uuid : string) (now : Z) : Completion Rule.t :=
  match RuleData.type data with
  | Some type =>
    if String.eqb type (RULE_TYPES_value TENANT) then
      Normal (Rule.Tenant
                {| TenantRule.id := string_or (RuleData.id data) uuid;
                   TenantRule.tenantIds := default [] (RuleData.tenantIds data);
                   TenantRule.enabled := RuleData.enabled_not_false data;
                   TenantRule.createdAt := now |})
    else if String.eqb type (RULE_TYPES_value USER) then
      Normal (Rule.User
                {| UserRule.id := string_or (RuleData.id data) uuid;
                   UserRule.userIds := default [] (RuleData.userIds data);
                   UserRule.enabled := RuleData.enabled_not_false data;
                   UserRule.createdAt := now |})
    else if String.eqb type (RULE_TYPES_value PERCENTAGE) then
      Normal (Rule.Percentage
                (PercentageRule.new (string_or (RuleData.id data) uuid)
                   (default 0 (RuleData.percentage data))
                   (RuleData.enabled_not_false data)
                   now))
    else Throw ("Unknown rule type: " +:+ type)
  | None => Throw ("Unknown rule type: " +:+ to_string None)
  end.
End FeatureFlag.

Module EvaluationResult.
Record t := {
  enabled : bool;
  matchedRule : option Rule.t;
  fallbackToDefault : bool;
  evaluationTime : Z
}.
End EvaluationResult.

(** ** The evaluation engine *)

Module FeatureEvaluationEngine.

(** Building the argument of a logger call that reads [featureFlag.id],
    [featureFlag.name], [context.userId] and [context.tenantId]. *)
Definition log_fields (featureFlag : option FeatureFlag.t)
    (context : option EvaluationContext.t) : Completion unit :=
  _ ← deref featureFlag;
  _ ← deref context;
  mret tt.

Definition _validateEvaluationInputs (featureFlag : option FeatureFlag.t)
    (context : option EvaluationContext.t) : Completion unit :=
  match featureFlag with
  | None => Throw "Feature flag is required"
  | Some _ =>
    match context with
    | None => Throw "Evaluation context is required"
    | Some c =>
      if negb (truthy (EvaluationContext.userId c)) then
        Throw "User ID is required in evaluation context"
      else if negb (truthy (EvaluationContext.tenantId c)) then
        Throw "Tenant ID is required in evaluation context"
      else
        (* [Array.isArray(featureFlag.rules)]: the rules are a list. *)
        Normal tt
    end
  end.

(** The loop of [_evaluateRules]. The first component records, in order,
    the rules whose [evaluate] was called; the second is the value
    returned. A rule that throws is logged and skipped. *)
Fixpoint _evaluateRules (rules : list Rule.t) (context : EvaluationContext.t)
  : list Rule.t * option Rule.t :=
  match rules with
  | [] => ([], None)
  | rule :: rest =>
    match try_catch (Rule.evaluate rule context) (fun _ => Normal false) with
    | Normal true => ([rule], Some rule)
    | _ =>
      let (calls, found) := _evaluateRules rest context in
      (rule :: calls, found)
    end
  end.

Definition consulted (rules : list Rule.t) (context : EvaluationContext.t)
  : list Rule.t := fst (_evaluateRules rules context).

(** [evaluate(featureFlag, context)]; [startTime] is the clock at entry and
    [endTime] the clock when the elapsed time is taken. *)
Definition evaluate (featureFlag : option FeatureFlag.t)
    (context : option EvaluationContext.t) (startTime endTime : Z)
  : Completion EvaluationResult.t :=
  try_catch
    (_ ← log_fields featureFlag context;
     _ ← _validateEvaluationInputs featureFlag context;
     flag ← deref featureFlag;
     ctx ← deref context;
     let matchedRule := snd (_evaluateRules (FeatureFlag.rules flag) ctx) in
     match matchedRule with
     | Some _ =>
       _ ← log_fields featureFlag context;
       mret {| EvaluationResult.enabled := true;
               EvaluationResult.matchedRule := matchedRule;
               EvaluationResult.fallbackToDefault := false;
               EvaluationResult.evaluationTime := endTime - startTime |}
     | None =>
       _ ← log_fields featureFlag context;
       mret {| EvaluationResult.enabled := FeatureFlag.enabled flag;
               EvaluationResult.matchedRule := matchedRule;
               EvaluationResult.fallbackToDefault := true;
               EvaluationResult.evaluationTime := endTime - startTime |}
     end)
    (fun error =>
     _ ← log_fields featureFlag context;
     flag ← deref featureFlag;
     mret {| EvaluationResult.enabled := FeatureFlag.enabled flag;
             EvaluationResult.matchedRule := None;
             EvaluationResult.fallbackToDefault := true;
             EvaluationResult.evaluationTime := endTime - startTime |}).

(** [featureFlags.map(flag => this.evaluate(flag, context))]. [clock n] is
    the value of the [n]-th call of [Date.now()] from the start of the
    batch, counted from 0; every call of [evaluate] makes two. *)
Fixpoint evaluate_each (featureFlags : list (option FeatureFlag.t))
    (context : option EvaluationContext.t) (clock : nat -> Z) (tick : nat)
  : Completion (list EvaluationResult.t) :=
  match featureFlags with
  | [] => Normal []
  | flag :: rest =>
    result ← evaluate flag context (clock tick) (clock (S tick));
    results ← evaluate_each rest context clock (S (S tick));
    mret (result :: results)
  end.

(** [evaluateBatch(featureFlags, context)]. The first logger call reads
    [context.userId] outside any [try]. The average time logged at the end
    is a division of numbers and does not throw. *)
Definition evaluateBatch (featureFlags : list (option FeatureFlag.t))
    (context : option EvaluationContext.t) (clock : nat -> Z)
  : Completion (list EvaluationResult.t) :=
  _ ← deref context;
  evaluate_each featureFlags context clock 1.

End FeatureEvaluationEngine.

(** ** Strings and arrays of the repository *)

(** [String.prototype.toLowerCase] on strings of ASCII characters: the
    letters A to Z are lowered and every other character is kept. The
    mapping of characters outside ASCII is not modelled, and no property
    below depends on which characters are lowered. *)
Definition Char_toLowerCase (c : ascii) : ascii :=
  let n := N_of_ascii c in
  if ((65 <=? n) && (n <=? 90))%N then ascii_of_N (n + 32) else c.

Fixpoint String_toLowerCase (s : string) : string :=
  match s with
  | EmptyString => EmptyString
  | String c rest => String (Char_toLowerCase c) (String_toLowerCase rest)
  end.

(** [s.includes(sub)]: [sub] occurs in [s] as a contiguous substring. *)
Fixpoint String_includes (s sub : string) : bool :=
  String.prefix sub s ||
  match s with
  | EmptyString => false
  | String _ rest => String_includes rest sub
  end.

(** [Array.prototype.slice(start, end)] for integral arguments. *)
Definition Array_slice {A} (l : list A) (start end_ : Z) : list A :=
  let len := Z.of_nat (length l) in
  let k := if start <? 0 then Z.max (len + start) 0 else Z.min start len in
  let final := if end_ <? 0 then Z.max (len + end_) 0 else Z.min end_ len in
  take (Z.to_nat (final - k)) (drop (Z.to_nat k) l).

(** ** The JavaScript [Map] with string keys

    Entries are kept in insertion order, which is the order of iteration.
    Setting a key that is present replaces its value in place; deleting
    removes the entry. *)

Module JsMap.
Definition t (V : Type) := list (string * V).

Section Ops.
Context {V : Type}.

Fixpoint get (key : string) (m : t V) : option V :=
  match m with
  | [] => None
  | (k, v) :: rest => if String.eqb k key then Some v else get key rest
  end.

Definition has (key : string) (m : t V) : bool :=
  match get key m with
  | Some _ => true
  | None => false
  end.

Fixpoint set (key : string) (value : V) (m : t V) : t V :=
  match m with
  | [] => [(key, value)]
  | (k, v) :: rest =>
    if String.eqb k key then (k, value) :: rest
    else (k, v) :: set key value rest
  end.

Fixpoint delete (key : string) (m : t V) : t V :=
  match m with
  | [] => []
  | (k, v) :: rest =>
    if String.eqb k key then delete key rest
    else (k, v) :: delete key rest
  end.

Definition keys (m : t V) : list string := map fst m.
Definition values (m : t V) : list V := map snd m.
Definition entries (m : t V) : list (string * V) := m.
End Ops.
End JsMap.

(** ** The flag repository *)

(** Identity of a [FeatureFlag] object. Two references are the same object
    exactly when they are equal. *)
Definition ref := nat.

(** What the repository's operations read and write: the flag objects
    ([objects], mutated in place by [update]) and the repository's one
    [Map] ([flags]), which holds references. *)
Record State := {
  objects : gmap ref FeatureFlag.t;
  flags : JsMap.t ref
}.

Module Updates.
(** The [updates] argument of [update]: an object with any subset of the
    properties of a flag, [id] and the dates included; a property that is
    absent is [None]. [rules], when present, is taken as a list of rules;
    the plain objects of a request body are not rules and are outside this
    type. *)
Record t := {
  id : option string;
  name : option string;
  description : option string;
  enabled : option bool;
  rules : option (list Rule.t);
  createdAt : option Z;
  updatedAt : option Z
}.
End Updates.

(** [Object.assign(existingFlag, updates)]: every property of [updates] is
    copied onto the flag, whichever it is. *)
Definition Object_assign (target : FeatureFlag.t) (updates : Updates.t) : FeatureFlag.t :=
  {| FeatureFlag.id := default (FeatureFlag.id target) (Updates.id updates);
     FeatureFlag.name := default (FeatureFlag.name target) (Updates.name updates);
     FeatureFlag.description :=
       default (FeatureFlag.description target) (Updates.description updates);
     FeatureFlag.enabled := default (FeatureFlag.enabled target) (Updates.enabled updates);
     FeatureFlag.rules := default (FeatureFlag.rules target) (Updates.rules updates);
     FeatureFlag.createdAt :=
       default (FeatureFlag.createdAt target) (Updates.createdAt updates);
     FeatureFlag.updatedAt :=
       default (FeatureFlag.updatedAt target) (Updates.updatedAt updates) |}.

Definition set_updatedAt (flag : FeatureFlag.t) (now : Z) : FeatureFlag.t :=
  {| FeatureFlag.id := FeatureFlag.id flag;
     FeatureFlag.name := FeatureFlag.name flag;
     FeatureFlag.description := FeatureFlag.description flag;
     FeatureFlag.enabled := FeatureFlag.enabled flag;
     FeatureFlag.rules := FeatureFlag.rules flag;
     FeatureFlag.createdAt := FeatureFlag.createdAt flag;
     FeatureFlag.updatedAt := now |}.

Module ListOptions.
Record t := {
  limit : option Z;
  offset : option Z;
  search : option string
}.
Definition empty : t := {| limit := None; offset := None; search := None |}.
End ListOptions.

Module FeatureFlagRepository.

(** [new FeatureFlagRepository()] next to the given objects. *)
Definition new (objs : gmap ref FeatureFlag.t) : State :=
  {| objects := objs; flags := [] |}.

Definition with_flags (σ : State) (m : JsMap.t ref) : State :=
  {| objects := objects σ; flags := m |}.

(** Every [throw] below comes before the first write of its method, so a
    thrown completion leaves the state as it was. *)

Definition create (featureFlag : ref) (σ : State) : Completion (ref * State) :=
  flag ← deref (objects σ !! featureFlag);
  if JsMap.has (FeatureFlag.id flag) (flags σ) then
    Throw ("Feature flag with ID " +:+ FeatureFlag.id flag +:+ " already exists")
  else if JsMap.has (FeatureFlag.name flag) (flags σ) then
    Throw ("Feature flag with name '" +:+ FeatureFlag.name flag +:+ "' already exists")
  else
    let m := JsMap.set (FeatureFlag.id flag) featureFlag (flags σ) in
    let m := JsMap.set (FeatureFlag.name flag) featureFlag m in
    mret (featureFlag, with_flags σ m).

(** [this.flags.get(id) || null]: an object is never falsy. *)
Definition findById (id : string) (σ : State) : option ref :=
  JsMap.get id (flags σ).

Definition findByName (name : string) (σ : State) : option ref :=
  JsMap.get name (flags σ).

Definition update (id : string) (updates : Updates.t) (now : Z) (σ : State)
  : Completion (option ref * State) :=
  match JsMap.get id (flags σ) with
  | None => mret (None, σ)
  | Some existing =>
    existingFlag ← deref (objects σ !! existing);
    m ← match Updates.name updates with
        | Some newName =>
          if truthy (Some newName)
             && negb (String.eqb newName (FeatureFlag.name existingFlag)) then
            if JsMap.has newName (flags σ) then
              Throw ("Feature flag with name '" +:+ newName +:+ "' already exists")
            else
              mret (JsMap.set newName existing
                      (JsMap.delete (FeatureFlag.name existingFlag) (flags σ)))
          else mret (flags σ)
        | None => mret (flags σ)
        end;
    let updated := set_updatedAt (Object_assign existingFlag updates) now in
    mret (Some existing, {| objects := <[existing := updated]> (objects σ); flags := m |})
  end.

Definition delete (id : string) (σ : State) : Completion (bool * State) :=
  match JsMap.get id (flags σ) with
  | None => mret (false, σ)
  | Some r =>
    flag ← deref (objects σ !! r);
    let m := JsMap.delete id (flags σ) in
    let m := JsMap.delete (FeatureFlag.name flag) m in
    mret (true, with_flags σ m)
  end.

(** [typeof flag === 'object' && flag.id && flag.name] *)
Definition is_flag (σ : State) (r : ref) : bool :=
  match objects σ !! r with
  | Some flag =>
    truthy (Some (FeatureFlag.id flag)) && truthy (Some (FeatureFlag.name flag))
  | None => false
  end.

(** The search filter shared by [list] and [count]. *)
Definition matches (σ : State) (searchLower : string) (r : ref) : bool :=
  match objects σ !! r with
  | Some flag =>
    String_includes (String_toLowerCase (FeatureFlag.name flag)) searchLower
    || String_includes (String_toLowerCase (FeatureFlag.description flag)) searchLower
  | None => false
  end.

Definition apply_search (σ : State) (search : option string) (l : list ref)
  : list ref :=
  if truthy search then
    List.filter (matches σ (String_toLowerCase (to_string search))) l
  else l.

Definition list (options : ListOptions.t) (σ : State) : list ref :=
  let limit := default 100 (ListOptions.limit options) in
  let offset := default 0 (ListOptions.offset options) in
  let found := List.filter (is_flag σ) (JsMap.values (flags σ)) in
  let found := apply_search σ (ListOptions.search options) found in
  let startIndex := offset in
  let endIndex := startIndex + limit in
  Array_slice found startIndex endIndex.

(** An entry counts when its key is the id of the flag it holds. *)
Definition is_id_entry (σ : State) (entry : string * ref) : bool :=
  is_flag σ entry.2 &&
  match objects σ !! entry.2 with
  | Some flag => String.eqb (FeatureFlag.id flag) entry.1
  | None => false
  end.

Definition count (options : ListOptions.t) (σ : State) : nat :=
  let found := map snd (List.filter (is_id_entry σ) (JsMap.entries (flags σ))) in
  let found := apply_search σ (ListOptions.search options) found in
  length found.

Definition exists_ (id : string) (σ : State) : bool :=
  JsMap.has id (flags σ).

Record Stats := {
  totalFlags : nat;
  enabledFlags : nat;
  disabledFlags : nat;
  flagsWithRules : nat;
  totalRules : nat
}.

(** A property of the flag object behind a reference of the [Map]. *)
Definition flag_has (σ : State) (p : FeatureFlag.t -> bool) (r : ref) : bool :=
  match objects σ !! r with
  | Some flag => p flag
  | None => false
  end.

Definition rule_count (σ : State) (r : ref) : nat :=
  match objects σ !! r with
  | Some flag => length (FeatureFlag.rules flag)
  | None => 0
  end.

Definition getStats (σ : State) : Stats :=
  let found := List.filter (is_flag σ) (JsMap.values (flags σ)) in
  {| totalFlags := length found;
     enabledFlags := length (List.filter (flag_has σ FeatureFlag.enabled) found);
     disabledFlags :=
       length (List.filter (flag_has σ (fun flag => negb (FeatureFlag.enabled flag))) found);
     flagsWithRules :=
       length (List.filter
                 (flag_has σ (fun flag => (0 <? length (FeatureFlag.rules flag))%nat))
                 found);
     totalRules := fold_left (fun sum r => (sum + rule_count σ r)%nat) found 0%nat |}.

(** [this.flags.clear()] *)
Definition clear (σ : State) : State := with_flags σ [].

End FeatureFlagRepository.

(** ** The controller

    A handler reads its request and answers with a status and a JSON body.
    The request is given by the parts the handler reads; [timestamp] is the
    date the answer is stamped with and [path] is [req.path]. A handler that
    constructs a flag object is given the reference [r] of the new object.
    The body of an update is the [updates] argument of the repository. *)

Module FeatureFlagController.

Inductive Body :=
| FlagBody (data : FlagData.t) (timestamp : Z)
| MessageBody (message : string) (timestamp : Z)
| ListBody (data : list FlagData.t) (total : nat) (limit offset : option Z)
    (hasMore : bool) (timestamp : Z)
| EvaluationBody (name : string) (matchedRule : option RuleData.t) (enabled : bool)
| ErrorBody (error message : string) (timestamp : Z) (path : string).

Record Response := { status : Z; body : Body }.

(** The answer of every [catch] block but those of create and update. *)
Definition unexpected (timestamp : Z) (path : string) : Response :=
  {| status := 500;
     body := ErrorBody "Internal Server Error" "An unexpected error occurred"
               timestamp path |}.

Definition not_found (id : string) (timestamp : Z) (path : string) : Response :=
  {| status := 404;
     body := ErrorBody "Not Found" ("Feature flag with ID " +:+ id +:+ " not found")
               timestamp path |}.

(** [flag.toJSON()] on the object behind a reference, or on [null]. *)
Definition toJSON_of (σ : State) (r : option ref) : Completion FlagData.t :=
  flag ← deref (r ≫= fun r => objects σ !! r);
  mret (FeatureFlag.toJSON flag).

Fixpoint toJSON_each (σ : State) (refs : list ref) : Completion (list FlagData.t) :=
  match refs with
  | [] => Normal []
  | r :: rest =>
    data ← toJSON_of σ (Some r);
    others ← toJSON_each σ rest;
    mret (data :: others)
  end.

Definition createFeatureFlag (reqBody : FlagData.t) (r : ref) (uuid : string)
    (createdNow updatedNow : Z) (fresh : nat -> string * Z)
    (timestamp : Z) (path : string) (σ : State) : Response * State :=
  let bad_request (message : string) :=
    {| status := 400; body := ErrorBody "Bad Request" message timestamp path |} in
  match FeatureFlag.new reqBody uuid createdNow updatedNow fresh with
  | Throw message => (bad_request message, σ)
  | Normal featureFlag =>
    let σ := {| objects := <[r := featureFlag]> (objects σ); flags := flags σ |} in
    match FeatureFlagRepository.create r σ with
    | Throw message => (bad_request message, σ)
    | Normal (createdFlag, σ') =>
      match toJSON_of σ' (Some createdFlag) with
      | Throw message => (bad_request message, σ')
      | Normal data => ({| status := 201; body := FlagBody data timestamp |}, σ')
      end
    end
  end.

Definition getFeatureFlag (id : string) (timestamp : Z) (path : string) (σ : State)
  : Response :=
  match toJSON_of σ (FeatureFlagRepository.findById id σ) with
  | Throw _ => unexpected timestamp path
  | Normal data => {| status := 200; body := FlagBody data timestamp |}
  end.

Definition updateFeatureFlag (id : string) (reqBody : Updates.t) (now : Z)
    (timestamp : Z) (path : string) (σ : State) : Response * State :=
  let failed (message : string) :=
    let statusCode := if String_includes message "already exists" then 409 else 500 in
    {| status := statusCode;
       body := ErrorBody (if statusCode =? 409 then "Conflict" else "Internal Server Error")
                 message timestamp path |} in
  match FeatureFlagRepository.update id reqBody now σ with
  | Throw message => (failed message, σ)
  | Normal (None, σ') => (not_found id timestamp path, σ')
  | Normal (Some updatedFlag, σ') =>
    match toJSON_of σ' (Some updatedFlag) with
    | Throw message => (failed message, σ')
    | Normal data => ({| status := 200; body := FlagBody data timestamp |}, σ')
    end
  end.

Definition deleteFeatureFlag (id : string) (timestamp : Z) (path : string) (σ : State)
  : Response * State :=
  match FeatureFlagRepository.delete id σ with
  | Throw _ => (unexpected timestamp path, σ)
  | Normal (false, σ') => (not_found id timestamp path, σ')
  | Normal (true, σ') =>
    ({| status := 200;
        body := MessageBody "Feature flag deleted successfully" timestamp |}, σ')
  end.

(** [hasMore: offset + limit < total]; a comparison with a missing number is
    false. *)
Definition hasMore (query : ListOptions.t) (total : nat) : bool :=
  match ListOptions.offset query, ListOptions.limit query with
  | Some offset, Some limit => offset + limit <? Z.of_nat total
  | _, _ => false
  end.

Definition listFeatureFlags (query : ListOptions.t) (timestamp : Z) (path : string)
    (σ : State) : Response :=
  let found := FeatureFlagRepository.list query σ in
  let total := FeatureFlagRepository.count query σ in
  match toJSON_each σ found with
  | Throw _ => unexpected timestamp path
  | Normal data =>
    {| status := 200;
       body := ListBody data total (ListOptions.limit query) (ListOptions.offset query)
                 (hasMore query total) timestamp |}
  end.

Definition evaluateFeatureFlag (id : string) (reqBody : EvaluationContext.t)
    (startTime endTime : Z) (timestamp : Z) (path : string) (σ : State) : Response :=
  match FeatureFlagRepository.findById id σ with
  | None => not_found id timestamp path
  | Some r =>
    match FeatureEvaluationEngine.evaluate (objects σ !! r) (Some reqBody)
            startTime endTime,
          deref (objects σ !! r) with
    | Normal result, Normal featureFlag =>
      {| status := 200;
         body := EvaluationBody (FeatureFlag.name featureFlag)
                   (Rule.toJSON <$> EvaluationResult.matchedRule result)
                   (EvaluationResult.enabled result) |}
    | _, _ => unexpected timestamp path
    end
  end.

End FeatureFlagController.

(** ** Vocabulary of the properties *)

Definition nonempty (s : option string) : Prop :=
  exists v, s = Some v /\ v <> "".

(** A context that passes the engine's validation: both identifiers are
    present and not the empty string. *)
Definition valid_context (context : EvaluationContext.t) : Prop :=
  nonempty (EvaluationContext.userId context)
  /\ nonempty (EvaluationContext.tenantId context).

(** A rule does not match when its [evaluate] returns false or throws. *)
Definition no_match (context : EvaluationContext.t) (rule : Rule.t) : Prop :=
  Rule.evaluate rule context <> Normal true.

(** The dual-key invariant: whatever key holds a flag object, that key is
    the flag's id or its name, both the id and the name hold the same
    object, and they are two keys. *)
Definition dual_key (σ : State) : Prop :=
  forall (key : string) (r : ref),
    JsMap.get key (flags σ) = Some r ->
    exists flag,
      objects σ !! r = Some flag
      /\ (key = FeatureFlag.id flag \/ key = FeatureFlag.name flag)
      /\ JsMap.get (FeatureFlag.id flag) (flags σ) = Some r
      /\ JsMap.get (FeatureFlag.name flag) (flags σ) = Some r
      /\ FeatureFlag.id flag <> FeatureFlag.name flag.

(** Regular use of the repository: a flag object is constructed; a flag whose
    id differs from its name is created; a flag is updated, the updates
    having no [id] and their new name, if any, not being the empty string; a
    flag is deleted by its id. Each step is a successful call. *)
Inductive regular_step : State -> State -> Prop :=
| step_construct (σ : State) (r : ref) (flag : FeatureFlag.t) :
    objects σ !! r = None ->
    regular_step σ {| objects := <[r := flag]> (objects σ); flags := flags σ |}
| step_create (σ σ' : State) (r : ref) (flag : FeatureFlag.t) :
    objects σ !! r = Some flag ->
    FeatureFlag.id flag <> FeatureFlag.name flag ->
    FeatureFlagRepository.create r σ = Normal (r, σ') ->
    regular_step σ σ'
| step_update (σ σ' : State) (key : string) (updates : Updates.t) (now : Z)
    (result : option ref) :
    Updates.id updates = None ->
    Updates.name updates <> Some "" ->
    FeatureFlagRepository.update key updates now σ = Normal (result, σ') ->
    regular_step σ σ'
| step_delete (σ σ' : State) (r : ref) (flag : FeatureFlag.t) (deleted : bool) :
    JsMap.get (FeatureFlag.id flag) (flags σ) = Some r ->
    objects σ !! r = Some flag ->
    FeatureFlagRepository.delete (FeatureFlag.id flag) σ = Normal (deleted, σ') ->
    regular_step σ σ'.

Inductive regular : State -> Prop :=
| regular_new : regular (FeatureFlagRepository.new ∅)
| regular_next (σ σ' : State) : regular σ -> regular_step σ σ' -> regular σ'.

(** Any use of the repository: a flag object is constructed, or one of
    [create], [update], [delete] returns. *)
Inductive step : State -> State -> Prop :=
| any_construct (σ : State) (r : ref) (flag : FeatureFlag.t) :
    objects σ !! r = None ->
    step σ {| objects := <[r := flag]> (objects σ); flags := flags σ |}
| any_create (σ σ' : State) (r x : ref) :
    FeatureFlagRepository.create r σ = Normal (x, σ') ->
    step σ σ'
| any_update (σ σ' : State) (key : string) (updates : Updates.t) (now : Z)
    (result : option ref) :
    FeatureFlagRepository.update key updates now σ = Normal (result, σ') ->
    step σ σ'
| any_delete (σ σ' : State) (key : string) (deleted : bool) :
    FeatureFlagRepository.delete key σ = Normal (deleted, σ') ->
    step σ σ'.

Inductive reachable : State -> Prop :=
| reachable_new : reachable (FeatureFlagRepository.new ∅)
| reachable_next (σ σ' : State) : reachable σ -> step σ σ' -> reachable σ'.

(** ** Concrete flags, contexts and repositories used below *)

Definition ctx_user1_company1 : EvaluationContext.t :=
  {| EvaluationContext.userId := Some "user1";
     EvaluationContext.tenantId := Some "company1";
     EvaluationContext.additionalData := [] |}.

Definition rule_company2 : Rule.t :=
  Rule.Tenant {| TenantRule.id := "r1"; TenantRule.tenantIds := ["company2"];
                 TenantRule.enabled := true; TenantRule.createdAt := 0 |}.

Definition rule_user1 : Rule.t :=
  Rule.User {| UserRule.id := "r2"; UserRule.userIds := ["user1"];
               UserRule.enabled := true; UserRule.createdAt := 0 |}.

Definition rule_company1 : Rule.t :=
  Rule.Tenant {| TenantRule.id := "r3"; TenantRule.tenantIds := ["company1"];
                 TenantRule.enabled := true; TenantRule.createdAt := 0 |}.

Definition rule_abstract : Rule.t :=
  Rule.Base {| BaseRule.id := "r0"; BaseRule.type := None;
               BaseRule.enabled := true; BaseRule.createdAt := 0 |}.

Definition flag_with (id name : string) (rules : list Rule.t) : FeatureFlag.t :=
  {| FeatureFlag.id := id; FeatureFlag.name := name;
     FeatureFlag.description := ""; FeatureFlag.enabled := false;
     FeatureFlag.rules := rules;
     FeatureFlag.createdAt := 0; FeatureFlag.updatedAt := 0 |}.

(** One flag object, [r0], with id "id1" and name "f1", and the states of a
    repository that stores it, renames it to "f2", and deletes it. *)
Definition r0 : ref := 0%nat.

Definition objs_f1 : gmap ref FeatureFlag.t := {[ r0 := flag_with "id1" "f1" [] ]}.

Definition rename_to (newName : string) : Updates.t :=
  {| Updates.id := None; Updates.name := Some newName; Updates.description := None;
     Updates.enabled := None; Updates.rules := None;
     Updates.createdAt := None; Updates.updatedAt := None |}.

Definition st_empty : State := FeatureFlagRepository.new objs_f1.

Definition st_created : State :=
  {| objects := objs_f1; flags := [("id1", r0); ("f1", r0)] |}.

Definition st_renamed : State :=
  {| objects := <[ r0 := set_updatedAt
                           (Object_assign (flag_with "id1" "f1" []) (rename_to "f2")) 5 ]>
                  objs_f1;
     flags := [("id1", r0); ("f2", r0)] |}.

Definition st_deleted : State :=
  {| objects := objects st_renamed; flags := [] |}.

(** The same flag after [update("id1", {id: "x"})]. *)
Definition reidentify_to (newId : string) : Updates.t :=
  {| Updates.id := Some newId; Updates.name := None; Updates.description := None;
     Updates.enabled := None; Updates.rules := None;
     Updates.createdAt := None; Updates.updatedAt := None |}.

Definition st_reidentified : State :=
  {| objects := <[ r0 := set_updatedAt
                           (Object_assign (flag_with "id1" "f1" []) (reidentify_to "x")) 5 ]>
                  objs_f1;
     flags := [("id1", r0); ("f1", r0)] |}.

(** The same flag after [update("id1", {name: ""})]. *)
Definition st_unnamed : State :=
  {| objects := <[ r0 := set_updatedAt
                           (Object_assign (flag_with "id1" "f1" []) (rename_to "")) 5 ]>
                  objs_f1;
     flags := [("id1", r0); ("f1", r0)] |}.

(** [create(flag); list()] on a new repository. *)
Definition create_then_list : Completion (list ref * nat) :=
  created ← FeatureFlagRepository.create r0 st_empty;
  mret (FeatureFlagRepository.list ListOptions.empty created.2,
        FeatureFlagRepository.count ListOptions.empty created.2).

(** A flag whose id and name are both "a":
    [create(flag); update("a", {name: "b"}); count()], together with what
    [list()] and [findByName("b")] return in the final state. *)
Definition objs_aa : gmap ref FeatureFlag.t := {[ r0 := flag_with "a" "a" [] ]}.

Definition st_aa : State := {| objects := objs_aa; flags := [("a", r0)] |}.

Definition flag_ab : FeatureFlag.t :=
  set_updatedAt (Object_assign (flag_with "a" "a" []) (rename_to "b")) 5.

Definition st_ab : State :=
  {| objects := <[ r0 := flag_ab ]> objs_aa; flags := [("b", r0)] |}.

Definition create_rename_then_count : Completion (nat * list ref * option ref) :=
  created ← FeatureFlagRepository.create r0 (FeatureFlagRepository.new objs_aa);
  updated ← FeatureFlagRepository.update "a" (rename_to "b") 5 created.2;
  mret (FeatureFlagRepository.count ListOptions.empty updated.2,
        FeatureFlagRepository.list ListOptions.empty updated.2,
        FeatureFlagRepository.findByName "b" updated.2).

(** ** Vocabulary of the further properties *)

(** A rule that [toJSON] and [fromJSON] carry unchanged: one of the three
    variants, with a non-empty id and, for a percentage rule, a percentage
    the constructor leaves as it is. *)
Definition serializable (rule : Rule.t) : Prop :=
  Rule.concrete rule = true
  /\ Rule.id rule <> ""
  /\ forall r, rule = Rule.Percentage r -> 0 <= PercentageRule.percentage r <= 100.

(** [data.type] is one of the three strings of [RULE_TYPES]. *)
Definition known_type (data : RuleData.t) : Prop :=
  exists type, RuleData.type data = Some (RULE_TYPES_value type).

(** An element of the [rules] argument the constructor can take in. *)
Definition convertible (arg : FlagData.rule_arg) : Prop :=
  match arg with
  | FlagData.Instance _ => True
  | FlagData.Plain data => known_type data
  end.

(** [data] without its [createdAt] key. *)
Definition without_createdAt (data : RuleData.t) : RuleData.t :=
  {| RuleData.id := RuleData.id data;
     RuleData.type := RuleData.type data;
     RuleData.enabled := RuleData.enabled data;
     RuleData.createdAt := None;
     RuleData.tenantIds := RuleData.tenantIds data;
     RuleData.userIds := RuleData.userIds data;
     RuleData.percentage := RuleData.percentage data |}.

(** The entry's key is the id, or the name, of the flag it holds. *)
Definition id_entry (σ : State) (entry : string * ref) : bool :=
  FeatureFlagRepository.flag_has σ
    (fun flag => String.eqb (FeatureFlag.id flag) entry.1) entry.2.

Definition name_entry (σ : State) (entry : string * ref) : bool :=
  FeatureFlagRepository.flag_has σ
    (fun flag => String.eqb (FeatureFlag.name flag) entry.1) entry.2.

(** List options that ask for everything at once. *)
Definition unpaginated (σ : State) (search : option string) : ListOptions.t :=
  {| ListOptions.limit := Some (Z.of_nat (length (flags σ)));
     ListOptions.offset := None;
     ListOptions.search := search |}.

Definition page (offset limit : Z) (search : option string) : ListOptions.t :=
  {| ListOptions.limit := Some limit;
     ListOptions.offset := Some offset;
     ListOptions.search := search |}.

Definition searching (search : option string) : ListOptions.t :=
  {| ListOptions.limit := None; ListOptions.offset := None;
     ListOptions.search := search |}.

(** Flags and data of the examples below. *)
Definition rule_half : Rule.t :=
  Rule.Percentage (PercentageRule.new "r4" 50 true 7).

Definition flag_three_rules : FeatureFlag.t :=
  flag_with "id1" "f1" [rule_company2; rule_user1; rule_half].

Definition no_fresh : nat -> string * Z := fun _ => ("", 0).

Definition ctx_no_user : EvaluationContext.t :=
  {| EvaluationContext.userId := None;
     EvaluationContext.tenantId := Some "company1";
     EvaluationContext.additionalData := [] |}.

Definition data_unknown : RuleData.t :=
  {| RuleData.id := Some "r9"; RuleData.type := Some "region";
     RuleData.enabled := None; RuleData.createdAt := None;
     RuleData.tenantIds := None; RuleData.userIds := None;
     RuleData.percentage := None |}.

Definition data_tenant : RuleData.t :=
  {| RuleData.id := None; RuleData.type := Some "tenant";
     RuleData.enabled := None; RuleData.createdAt := None;
     RuleData.tenantIds := Some ["company1"]; RuleData.userIds := None;
     RuleData.percentage := None |}.

(** ** Properties of the models *)

Lemma truthy_nonempty (s : option string) : truthy s = true <-> nonempty s.
Proof.
  unfold nonempty. destruct s as [v|]; simpl.
  - destruct (String.eqb_spec v ""); simpl; split.
    + discriminate.
    + intros (w & [= <-] & Hw). contradiction.
    + intros _. exists v. auto.
    + reflexivity.
  - split; [discriminate | intros (w & Hw & _); discriminate].
Qed.

Example hash_abc : PercentageRule._hash "abc" = 96354.
Proof. reflexivity. Qed.

Lemma to_int32_range (z : Z) : - 2^31 <= to_int32 z < 2^31.
Proof.
  unfold to_int32.
  pose proof (Z.mod_pos_bound (z + 2^31) (2^32) ltac:(lia)). lia.
Qed.

Lemma hash_nonneg (str : string) : 0 <= PercentageRule._hash str <= 2^31.
Proof.
  unfold PercentageRule._hash.
  assert (H : forall s h, - 2^31 <= h < 2^31 ->
                          - 2^31 <= PercentageRule._hash_loop s h < 2^31).
  { induction s as [|c s IH]; intros h Hh; simpl; [exact Hh|].
    apply IH. unfold PercentageRule._hash_step, and32. apply to_int32_range. }
  specialize (H str 0 ltac:(lia)). lia.
Qed.

(** The bucket of a context is a number from 0 to 99. *)
Lemma bucket_range (context : EvaluationContext.t) :
  0 <= PercentageRule.bucket_of context < 100.
Proof.
  unfold PercentageRule.bucket_of.
  apply Z.rem_bound_pos; [apply hash_nonneg | lia].
Qed.

(** C8. The constructor of [PercentageRule] is total and stores the input
    clamped into [0,100]: 0 for an input below 0, 100 for an input above
    100, the input itself otherwise. *)
Theorem percentage_is_clamped (id : string) (p : Z) (enabled : bool) (createdAt : Z) :
  let stored := PercentageRule.percentage (PercentageRule.new id p enabled createdAt) in
  0 <= stored <= 100
  /\ stored = (if p <? 0 then 0 else if 100 <? p then 100 else p).
Proof.
  simpl. destruct (Z.ltb_spec p 0), (Z.ltb_spec 100 p); lia.
Qed.

(** C9. A rule of one of the three variants whose [enabled] field is false
    evaluates to false in every context, whatever its tenant ids, user ids
    or percentage are. *)
Theorem disabled_rule_never_matches (rule : Rule.t) (context : EvaluationContext.t) :
  Rule.concrete rule = true ->
  Rule.enabled rule = false ->
  Rule.evaluate rule context = Normal false.
Proof.
  destruct rule as [r|r|r|r]; simpl; intros Hc He; try discriminate Hc.
  - unfold TenantRule.evaluate. now rewrite He.
  - unfold UserRule.evaluate. now rewrite He.
  - unfold PercentageRule.evaluate. now rewrite He.
Qed.

Lemma disabled_rule_never_matches_witness :
  Rule.evaluate
    (Rule.Percentage {| PercentageRule.id := "r1"; PercentageRule.percentage := 100;
                        PercentageRule.enabled := false; PercentageRule.createdAt := 0 |})
    {| EvaluationContext.userId := Some "u1"; EvaluationContext.tenantId := Some "t1";
       EvaluationContext.additionalData := [] |}
  = Normal false.
Proof. apply disabled_rule_never_matches; reflexivity. Defined.

(** C7. For one context and two enabled percentage rules with percentages
    [p1 < p2] in [0,100]: when the rule with [p1] matches, so does the rule
    with [p2]. *)
Theorem percentage_monotone (context : EvaluationContext.t)
    (id1 id2 : string) (p1 p2 : Z) (c1 c2 : Z) :
  0 <= p1 -> p1 < p2 -> p2 <= 100 ->
  PercentageRule.evaluate (PercentageRule.new id1 p1 true c1) context = true ->
  PercentageRule.evaluate (PercentageRule.new id2 p2 true c2) context = true.
Proof.
  intros H0 H12 H100. unfold PercentageRule.evaluate, PercentageRule.new. simpl.
  rewrite !Z.max_r, !Z.min_r by lia.
  destruct (Z.eqb_spec p1 0) as [->|Hp1]; [discriminate|].
  destruct (Z.eqb_spec p2 0) as [->|Hp2]; [lia|].
  destruct (Z.eqb_spec p2 100) as [->|Hp2']; [reflexivity|].
  destruct (Z.eqb_spec p1 100) as [->|Hp1']; [lia|].
  rewrite !Z.ltb_lt. lia.
Qed.

Lemma percentage_monotone_witness :
  let context := {| EvaluationContext.userId := Some "user1";
                    EvaluationContext.tenantId := Some "company1";
                    EvaluationContext.additionalData := [] |} in
  PercentageRule.evaluate (PercentageRule.new "r1" 49 true 0) context = true
  /\ PercentageRule.evaluate (PercentageRule.new "r2" 50 true 0) context = true.
Proof.
  simpl. assert (H : PercentageRule.evaluate (PercentageRule.new "r1" 49 true 0)
    {| EvaluationContext.userId := Some "user1";
       EvaluationContext.tenantId := Some "company1";
       EvaluationContext.additionalData := [] |} = true) by (vm_compute; reflexivity).
  split; [exact H|].
  apply (percentage_monotone _ "r1" "r2" 49 50 0 0); [lia | lia | lia | exact H].
Defined.

(** ** Properties of the evaluation engine *)

Section Engine.
Import FeatureEvaluationEngine.

Variable context : EvaluationContext.t.

Lemma evaluateRules_no_match (rule : Rule.t) (rest : list Rule.t) :
  no_match context rule ->
  _evaluateRules (rule :: rest) context
  = (rule :: fst (_evaluateRules rest context), snd (_evaluateRules rest context)).
Proof.
  unfold no_match. intros Hn. simpl.
  destruct (Rule.evaluate rule context) as [[|]|e]; simpl;
    try congruence; now destruct (_evaluateRules rest context).
Qed.

Lemma evaluateRules_match (rule : Rule.t) (rest : list Rule.t) :
  Rule.evaluate rule context = Normal true ->
  _evaluateRules (rule :: rest) context = ([rule], Some rule).
Proof. intros H. simpl. now rewrite H. Qed.

(** Rules that do not match are passed over, each consulted once. *)
Lemma evaluateRules_skip (l1 rest : list Rule.t) :
  Forall (no_match context) l1 ->
  _evaluateRules (l1 ++ rest) context
  = (l1 ++ fst (_evaluateRules rest context), snd (_evaluateRules rest context)).
Proof.
  induction 1 as [|rule l1 Hn _ IH]; simpl app.
  - now destruct (_evaluateRules rest context).
  - rewrite evaluateRules_no_match by assumption. now rewrite IH.
Qed.

Lemma evaluateRules_first_match (l1 l2 : list Rule.t) (rule : Rule.t) :
  Forall (no_match context) l1 ->
  Rule.evaluate rule context = Normal true ->
  _evaluateRules (l1 ++ rule :: l2) context = (l1 ++ [rule], Some rule).
Proof.
  intros Hl1 Hr. rewrite evaluateRules_skip by assumption.
  now rewrite evaluateRules_match.
Qed.

Lemma evaluateRules_none (rules : list Rule.t) :
  Forall (no_match context) rules ->
  _evaluateRules rules context = (rules, None).
Proof.
  intros H. rewrite <- (app_nil_r rules) at 1.
  rewrite evaluateRules_skip by assumption. simpl. now rewrite app_nil_r.
Qed.

Lemma throwing_rule_no_match (rule : Rule.t) (e : string) :
  Rule.evaluate rule context = Throw e -> no_match context rule.
Proof. unfold no_match. congruence. Qed.

(** Removing a rule that does not match leaves the returned rule as it is. *)
Lemma evaluateRules_drop_no_match (l1 l2 : list Rule.t) (rule : Rule.t) :
  no_match context rule ->
  snd (_evaluateRules (l1 ++ rule :: l2) context)
  = snd (_evaluateRules (l1 ++ l2) context).
Proof.
  intros Hn. induction l1 as [|r l1 IH]; simpl app.
  - now rewrite evaluateRules_no_match.
  - simpl. destruct (try_catch (Rule.evaluate r context) _) as [[|]|]; simpl;
      try reflexivity;
      destruct (_evaluateRules (l1 ++ rule :: l2) context),
               (_evaluateRules (l1 ++ l2) context); exact IH.
Qed.

Variables (startTime endTime : Z).

(** With both arguments present the two logger calls and the reads of the
    handler succeed, so what is left is validation and the scan. *)
Lemma evaluate_objects (flag : FeatureFlag.t) :
  evaluate (Some flag) (Some context) startTime endTime
  = Normal
      (if truthy (EvaluationContext.userId context)
          && truthy (EvaluationContext.tenantId context)
       then
         match snd (_evaluateRules (FeatureFlag.rules flag) context) with
         | Some rule =>
           {| EvaluationResult.enabled := true;
              EvaluationResult.matchedRule := Some rule;
              EvaluationResult.fallbackToDefault := false;
              EvaluationResult.evaluationTime := endTime - startTime |}
         | None =>
           {| EvaluationResult.enabled := FeatureFlag.enabled flag;
              EvaluationResult.matchedRule := None;
              EvaluationResult.fallbackToDefault := true;
              EvaluationResult.evaluationTime := endTime - startTime |}
         end
       else
         {| EvaluationResult.enabled := FeatureFlag.enabled flag;
            EvaluationResult.matchedRule := None;
            EvaluationResult.fallbackToDefault := true;
            EvaluationResult.evaluationTime := endTime - startTime |}).
Proof.
  unfold evaluate. simpl.
  destruct (truthy (EvaluationContext.userId context)); simpl; [|reflexivity].
  destruct (truthy (EvaluationContext.tenantId context)); simpl; [|reflexivity].
  now destruct (snd (_evaluateRules (FeatureFlag.rules flag) context)).
Qed.

Lemma evaluate_valid (flag : FeatureFlag.t) :
  valid_context context ->
  evaluate (Some flag) (Some context) startTime endTime
  = Normal
      match snd (_evaluateRules (FeatureFlag.rules flag) context) with
      | Some rule =>
        {| EvaluationResult.enabled := true;
           EvaluationResult.matchedRule := Some rule;
           EvaluationResult.fallbackToDefault := false;
           EvaluationResult.evaluationTime := endTime - startTime |}
      | None =>
        {| EvaluationResult.enabled := FeatureFlag.enabled flag;
           EvaluationResult.matchedRule := None;
           EvaluationResult.fallbackToDefault := true;
           EvaluationResult.evaluationTime := endTime - startTime |}
      end.
Proof.
  intros [Hu Ht]. rewrite evaluate_objects.
  apply truthy_nonempty in Hu, Ht. now rewrite Hu, Ht.
Qed.

(** When validation fails on a flag and a context that are both objects,
    the handler answers with the flag's default. *)
Lemma evaluate_invalid_context (flag : FeatureFlag.t) :
  ~ valid_context context ->
  evaluate (Some flag) (Some context) startTime endTime
  = Normal {| EvaluationResult.enabled := FeatureFlag.enabled flag;
              EvaluationResult.matchedRule := None;
              EvaluationResult.fallbackToDefault := true;
              EvaluationResult.evaluationTime := endTime - startTime |}.
Proof.
  intros Hv. rewrite evaluate_objects.
  destruct (truthy (EvaluationContext.userId context)) eqn:Hu;
    destruct (truthy (EvaluationContext.tenantId context)) eqn:Ht; simpl;
    try reflexivity.
  exfalso. apply Hv. split; now apply truthy_nonempty.
Qed.

End Engine.

Import FeatureEvaluationEngine.

(** C3. With a flag object and a [null] context, [evaluate] throws: the
    first logger call reads [context.userId] inside the [try], and the
    handler's logger call reads it again, outside any [try]. The same
    happens for a [null] flag. The validation that was to reject these
    arguments is never reached. *)
Theorem evaluate_null_argument_throws
    (flag : FeatureFlag.t) (context : EvaluationContext.t) (startTime endTime : Z) :
  evaluate (Some flag) None startTime endTime
  = Throw "TypeError: Cannot read properties of null"
  /\ evaluate None (Some context) startTime endTime
    = Throw "TypeError: Cannot read properties of null".
Proof. split; reflexivity. Qed.

(** C4. With a valid context the rules are scanned in stored order. If
    [rule] is the first one whose [evaluate] returns true, the result is
    enabled, names [rule] as matched rule, is not a fallback, and the rules
    consulted are those up to and including [rule]. If no rule returns true
    the result is the flag's default, with no matched rule, as a fallback. *)
Theorem evaluate_first_match_or_default
    (flag : FeatureFlag.t) (context : EvaluationContext.t) (startTime endTime : Z) :
  valid_context context ->
  (forall l1 rule l2,
      FeatureFlag.rules flag = l1 ++ rule :: l2 ->
      Forall (no_match context) l1 ->
      Rule.evaluate rule context = Normal true ->
      evaluate (Some flag) (Some context) startTime endTime
      = Normal {| EvaluationResult.enabled := true;
                  EvaluationResult.matchedRule := Some rule;
                  EvaluationResult.fallbackToDefault := false;
                  EvaluationResult.evaluationTime := endTime - startTime |}
      /\ consulted (FeatureFlag.rules flag) context = l1 ++ [rule])
  /\ (Forall (no_match context) (FeatureFlag.rules flag) ->
      evaluate (Some flag) (Some context) startTime endTime
      = Normal {| EvaluationResult.enabled := FeatureFlag.enabled flag;
                  EvaluationResult.matchedRule := None;
                  EvaluationResult.fallbackToDefault := true;
                  EvaluationResult.evaluationTime := endTime - startTime |}
      /\ consulted (FeatureFlag.rules flag) context = FeatureFlag.rules flag).
Proof.
  intros Hv. split.
  - intros l1 rule l2 Hrules Hl1 Hr.
    rewrite evaluate_valid by assumption. unfold consulted.
    rewrite Hrules, evaluateRules_first_match by assumption. auto.
  - intros Hnone. rewrite evaluate_valid by assumption. unfold consulted.
    rewrite evaluateRules_none by assumption. auto.
Qed.

Lemma valid_ctx_user1_company1 : valid_context ctx_user1_company1.
Proof. split; eexists; (split; [reflexivity | discriminate]). Defined.

Lemma evaluate_first_match_or_default_witness :
  let flag := flag_with "id1" "f1" [rule_company2; rule_user1; rule_company1] in
  evaluate (Some flag) (Some ctx_user1_company1) 10 12
  = Normal {| EvaluationResult.enabled := true;
              EvaluationResult.matchedRule := Some rule_user1;
              EvaluationResult.fallbackToDefault := false;
              EvaluationResult.evaluationTime := 2 |}
  /\ consulted (FeatureFlag.rules flag) ctx_user1_company1
    = [rule_company2; rule_user1].
Proof.
  intros flag.
  apply (proj1 (evaluate_first_match_or_default flag ctx_user1_company1 10 12
                  valid_ctx_user1_company1)
           [rule_company2] rule_user1 [rule_company1]).
  - reflexivity.
  - constructor; [|constructor]. unfold no_match. simpl. discriminate.
  - reflexivity.
Defined.

(** C5. When the [evaluate] of one rule of a flag throws, the flag is still
    evaluated, and the result is the one the flag would have without that
    rule; in particular, with a valid context, the first rule after it that
    returns true (no rule before it doing so) is the matched rule, the
    faulty rule having been consulted on the way. *)
Theorem faulty_rule_is_skipped
    (flag : FeatureFlag.t) (context : EvaluationContext.t)
    (l1 l2 : list Rule.t) (bad : Rule.t) (e : string) (startTime endTime : Z) :
  FeatureFlag.rules flag = l1 ++ bad :: l2 ->
  Rule.evaluate bad context = Throw e ->
  (exists result,
      evaluate (Some flag) (Some context) startTime endTime = Normal result)
  /\ evaluate (Some flag) (Some context) startTime endTime
    = evaluate (Some (FeatureFlag.with_rules flag (l1 ++ l2))) (Some context)
        startTime endTime
  /\ (valid_context context ->
      Forall (no_match context) l1 ->
      forall m1 rule m2,
        l2 = m1 ++ rule :: m2 ->
        Forall (no_match context) m1 ->
        Rule.evaluate rule context = Normal true ->
        evaluate (Some flag) (Some context) startTime endTime
        = Normal {| EvaluationResult.enabled := true;
                    EvaluationResult.matchedRule := Some rule;
                    EvaluationResult.fallbackToDefault := false;
                    EvaluationResult.evaluationTime := endTime - startTime |}
        /\ consulted (FeatureFlag.rules flag) context = l1 ++ bad :: m1 ++ [rule]).
Proof.
  intros Hrules Hbad.
  pose proof (throwing_rule_no_match _ _ _ Hbad) as Hn.
  split; [|split].
  - rewrite evaluate_objects. eauto.
  - rewrite !evaluate_objects. simpl. rewrite Hrules.
    now rewrite evaluateRules_drop_no_match.
  - intros Hv Hl1 m1 rule m2 -> Hm1 Hr.
    rewrite evaluate_valid by assumption. unfold consulted. rewrite Hrules.
    replace (l1 ++ bad :: m1 ++ rule :: m2)
      with ((l1 ++ bad :: m1) ++ rule :: m2) by now rewrite <- app_assoc.
    rewrite evaluateRules_first_match; auto.
    + now rewrite <- app_assoc.
    + apply Forall_app; split; [assumption|]. now constructor.
Qed.

Lemma faulty_rule_is_skipped_witness :
  let flag := flag_with "id1" "f1" [rule_company2; rule_abstract; rule_user1] in
  evaluate (Some flag) (Some ctx_user1_company1) 10 12
  = Normal {| EvaluationResult.enabled := true;
              EvaluationResult.matchedRule := Some rule_user1;
              EvaluationResult.fallbackToDefault := false;
              EvaluationResult.evaluationTime := 2 |}
  /\ consulted (FeatureFlag.rules flag) ctx_user1_company1
    = [rule_company2; rule_abstract; rule_user1].
Proof.
  intros flag.
  assert (Hn : Forall (no_match ctx_user1_company1) [rule_company2]).
  { constructor; [|constructor]. unfold no_match. simpl. discriminate. }
  apply (proj2 (proj2 (faulty_rule_is_skipped flag ctx_user1_company1
                         [rule_company2] [rule_user1] rule_abstract
                         "evaluate() must be implemented by subclasses" 10 12
                         eq_refl eq_refl))
           valid_ctx_user1_company1 Hn [] rule_user1 [] eq_refl (List.Forall_nil _) eq_refl).
Defined.

(** ** Properties of the JavaScript [Map] *)

Section JsMapFacts.
Context {V : Type}.
Implicit Types (m : JsMap.t V) (k : string) (v : V).

Lemma JsMap_get_set_eq m k v : JsMap.get k (JsMap.set k v m) = Some v.
Proof.
  induction m as [|[k' v'] m IH]; simpl.
  - now rewrite String.eqb_refl.
  - destruct (String.eqb k' k) eqn:E; simpl; now rewrite E.
Qed.

Lemma JsMap_get_set_ne m k k' v :
  k <> k' -> JsMap.get k' (JsMap.set k v m) = JsMap.get k' m.
Proof.
  intros Hne. induction m as [|[k0 v0] m IH]; simpl.
  - apply String.eqb_neq in Hne. now rewrite Hne.
  - destruct (String.eqb_spec k0 k) as [->|Hk]; simpl.
    + apply String.eqb_neq in Hne. now rewrite Hne.
    + now rewrite IH.
Qed.

Lemma JsMap_get_delete_eq m k : JsMap.get k (JsMap.delete k m) = None.
Proof.
  induction m as [|[k' v'] m IH]; simpl; [reflexivity|].
  destruct (String.eqb k' k) eqn:E; simpl; [assumption|]. now rewrite E.
Qed.

Lemma JsMap_get_delete_ne m k k' :
  k <> k' -> JsMap.get k' (JsMap.delete k m) = JsMap.get k' m.
Proof.
  intros Hne. induction m as [|[k0 v0] m IH]; simpl; [reflexivity|].
  destruct (String.eqb_spec k0 k) as [->|Hk]; simpl.
  - apply String.eqb_neq in Hne. now rewrite Hne.
  - now rewrite IH.
Qed.

Lemma JsMap_get_delete_None m k k' :
  JsMap.get k' m = None -> JsMap.get k' (JsMap.delete k m) = None.
Proof.
  intros H. destruct (String.eqb_spec k k') as [->|Hne].
  - apply JsMap_get_delete_eq.
  - now rewrite JsMap_get_delete_ne.
Qed.

Lemma JsMap_has_get m k : JsMap.has k m = true <-> is_Some (JsMap.get k m).
Proof.
  unfold JsMap.has. destruct (JsMap.get k m); split; intros H;
    try discriminate; eauto. now destruct H.
Qed.

Lemma JsMap_keys_set_in m k v :
  JsMap.has k m = true -> JsMap.keys (JsMap.set k v m) = JsMap.keys m.
Proof.
  unfold JsMap.has, JsMap.keys. induction m as [|[k' v'] m IH]; simpl.
  - discriminate.
  - destruct (String.eqb k' k) eqn:E; simpl; [reflexivity|].
    intros H. now rewrite IH.
Qed.

Lemma JsMap_keys_set_fresh m k v :
  JsMap.has k m = false -> JsMap.keys (JsMap.set k v m) = JsMap.keys m ++ [k].
Proof.
  unfold JsMap.has, JsMap.keys. induction m as [|[k' v'] m IH]; simpl.
  - reflexivity.
  - destruct (String.eqb k' k) eqn:E; simpl; [discriminate|].
    intros H. now rewrite IH.
Qed.

Lemma JsMap_get_None_keys m k : JsMap.get k m = None <-> ~ In k (JsMap.keys m).
Proof.
  unfold JsMap.keys. induction m as [|[k' v'] m IH]; simpl.
  - tauto.
  - destruct (String.eqb_spec k' k) as [->|Hne]; split; intros H.
    + discriminate.
    + exfalso. apply H. now left.
    + intros [Hk|Hin]; [contradiction|]. now apply IH.
    + apply IH. intros Hin. apply H. now right.
Qed.

(** Keys stay pairwise distinct, as in a [Map]. *)
Lemma JsMap_set_NoDup m k v :
  NoDup (JsMap.keys m) -> NoDup (JsMap.keys (JsMap.set k v m)).
Proof.
  intros Hnd. destruct (JsMap.has k m) eqn:Hh.
  - now rewrite JsMap_keys_set_in.
  - rewrite JsMap_keys_set_fresh by assumption.
    apply NoDup_app.
    split; [assumption|]. split; [|apply NoDup_singleton].
    intros x Hx Hx'. apply list_elem_of_In in Hx.
    apply list_elem_of_singleton in Hx'. subst x.
    unfold JsMap.has in Hh. destruct (JsMap.get k m) eqn:Hg; [discriminate|].
    now apply JsMap_get_None_keys in Hg.
Qed.

Lemma JsMap_delete_keys_In m k k' :
  In k' (JsMap.keys (JsMap.delete k m)) -> In k' (JsMap.keys m).
Proof.
  unfold JsMap.keys. induction m as [|[k0 v0] m IH]; simpl; [tauto|].
  destruct (String.eqb k0 k); simpl; tauto.
Qed.

Lemma JsMap_delete_NoDup m k :
  NoDup (JsMap.keys m) -> NoDup (JsMap.keys (JsMap.delete k m)).
Proof.
  induction m as [|[k0 v0] m IH]; simpl; [auto|].
  intros Hnd. apply NoDup_cons in Hnd as [Hnotin Hnd].
  destruct (String.eqb k0 k); [now apply IH|].
  apply NoDup_cons. split; [|now apply IH].
  intros Hin. apply Hnotin. apply list_elem_of_In.
  apply list_elem_of_In in Hin. now apply JsMap_delete_keys_In in Hin.
Qed.

Lemma JsMap_has_false m k : JsMap.has k m = false -> JsMap.get k m = None.
Proof. unfold JsMap.has. now destruct (JsMap.get k m). Qed.

Lemma JsMap_get_set_inv m k k' v v' :
  JsMap.get k' (JsMap.set k v m) = Some v' ->
  (k' = k /\ v' = v) \/ (k' <> k /\ JsMap.get k' m = Some v').
Proof.
  destruct (String.eqb_spec k k') as [->|Hne].
  - rewrite JsMap_get_set_eq. intros [= ->]. now left.
  - rewrite JsMap_get_set_ne by assumption. right. split; congruence.
Qed.

Lemma JsMap_get_delete_inv m k k' v' :
  JsMap.get k' (JsMap.delete k m) = Some v' ->
  k' <> k /\ JsMap.get k' m = Some v'.
Proof.
  destruct (String.eqb_spec k k') as [->|Hne].
  - rewrite JsMap_get_delete_eq. discriminate.
  - rewrite JsMap_get_delete_ne by assumption. split; congruence.
Qed.

Lemma JsMap_set_fresh m k v :
  JsMap.has k m = false -> JsMap.set k v m = m ++ [(k, v)].
Proof.
  unfold JsMap.has. induction m as [|[k' v'] m IH]; simpl; [reflexivity|].
  destruct (String.eqb k' k); [discriminate|]. intros H. now rewrite IH.
Qed.

End JsMapFacts.

(** ** Properties of the repository *)

Import FeatureFlagRepository.

Ltac unfold_completion :=
  unfold mbind, mret, Completion_bind, Completion_ret, deref in *; simpl in *.

(** What a successful [create] has checked and written. *)
Lemma create_Normal (σ σ' : State) (r x : ref) (flag : FeatureFlag.t) :
  objects σ !! r = Some flag ->
  create r σ = Normal (x, σ') ->
  x = r
  /\ JsMap.has (FeatureFlag.id flag) (flags σ) = false
  /\ JsMap.has (FeatureFlag.name flag) (flags σ) = false
  /\ σ' = with_flags σ
            (JsMap.set (FeatureFlag.name flag) r
               (JsMap.set (FeatureFlag.id flag) r (flags σ))).
Proof.
  intros Hobj. unfold create. rewrite Hobj. unfold_completion.
  destruct (JsMap.has (FeatureFlag.id flag) (flags σ)); [discriminate|].
  destruct (JsMap.has (FeatureFlag.name flag) (flags σ)); [discriminate|].
  intros [= <- <-]. auto.
Qed.

(** After [create], both keys hold the flag. *)
Lemma create_both_keys (σ σ' : State) (r x : ref) (flag : FeatureFlag.t) :
  objects σ !! r = Some flag ->
  create r σ = Normal (x, σ') ->
  JsMap.get (FeatureFlag.id flag) (flags σ') = Some r
  /\ JsMap.get (FeatureFlag.name flag) (flags σ') = Some r.
Proof.
  intros Hobj Hc. destruct (create_Normal _ _ _ _ _ Hobj Hc) as (_ & _ & _ & ->).
  simpl. split; [|apply JsMap_get_set_eq].
  destruct (String.eqb_spec (FeatureFlag.name flag) (FeatureFlag.id flag)) as [->|Hne].
  - apply JsMap_get_set_eq.
  - rewrite JsMap_get_set_ne by assumption. apply JsMap_get_set_eq.
Qed.

(** A successful [update] that carries a non-empty name different from the
    current one moves the name key. *)
Lemma update_rename_Normal (σ σ' : State) (id : string) (updates : Updates.t)
    (now : Z) (r : ref) (old : FeatureFlag.t) (newName : string) (result : option ref) :
  JsMap.get id (flags σ) = Some r ->
  objects σ !! r = Some old ->
  Updates.name updates = Some newName ->
  newName <> "" ->
  newName <> FeatureFlag.name old ->
  update id updates now σ = Normal (result, σ') ->
  result = Some r
  /\ JsMap.has newName (flags σ) = false
  /\ σ' = {| objects := <[r := set_updatedAt (Object_assign old updates) now]> (objects σ);
             flags := JsMap.set newName r
                        (JsMap.delete (FeatureFlag.name old) (flags σ)) |}.
Proof.
  intros Hget Hobj Hname Hne Hdiff. unfold update. rewrite Hget, Hobj, Hname.
  unfold_completion.
  apply String.eqb_neq in Hne, Hdiff. rewrite Hne, Hdiff. simpl.
  destruct (JsMap.has newName (flags σ)); [discriminate|].
  intros [= <- <-]. auto.
Qed.

(** An [update] whose name is empty, absent or unchanged leaves the [Map]
    as it is, whatever it writes into the flag. *)
Lemma update_keeps_keys (σ σ' : State) (id : string) (updates : Updates.t)
    (now : Z) (r : ref) (old : FeatureFlag.t) (result : option ref) :
  JsMap.get id (flags σ) = Some r ->
  objects σ !! r = Some old ->
  Updates.name updates = None \/ Updates.name updates = Some ""
    \/ Updates.name updates = Some (FeatureFlag.name old) ->
  update id updates now σ = Normal (result, σ') ->
  flags σ' = flags σ.
Proof.
  intros Hget Hobj Hname. unfold update. rewrite Hget, Hobj. unfold_completion.
  destruct Hname as [-> | [-> | ->]]; simpl.
  - now intros [= <- <-].
  - now intros [= <- <-].
  - rewrite String.eqb_refl, andb_false_r. now intros [= <- <-].
Qed.

Lemma delete_Normal (σ σ' : State) (id : string) (r : ref) (flag : FeatureFlag.t)
    (deleted : bool) :
  JsMap.get id (flags σ) = Some r ->
  objects σ !! r = Some flag ->
  delete id σ = Normal (deleted, σ') ->
  deleted = true
  /\ σ' = with_flags σ
            (JsMap.delete (FeatureFlag.name flag) (JsMap.delete id (flags σ))).
Proof.
  intros Hget Hobj. unfold delete. rewrite Hget, Hobj. unfold_completion.
  intros [= <- <-]. auto.
Qed.

(** *** The dual-key invariant under regular use *)

(** Two keys that hold different values are different keys. *)
Ltac keys_differ :=
  let E := fresh in intros E; rewrite E in *; congruence.

Lemma dual_key_new : dual_key (FeatureFlagRepository.new ∅).
Proof. intros key r. discriminate. Qed.

Lemma dual_key_construct (σ : State) (r : ref) (flag : FeatureFlag.t) :
  dual_key σ ->
  objects σ !! r = None ->
  dual_key {| objects := <[r := flag]> (objects σ); flags := flags σ |}.
Proof.
  intros Hinv Hfresh key r' Hget. simpl in *.
  destruct (Hinv key r' Hget) as (f & Hobj & Hrest).
  exists f. split; [|exact Hrest].
  rewrite lookup_insert_ne; [assumption|]. intros ->. congruence.
Qed.

Lemma dual_key_create (σ σ' : State) (r x : ref) (flag : FeatureFlag.t) :
  dual_key σ ->
  objects σ !! r = Some flag ->
  FeatureFlag.id flag <> FeatureFlag.name flag ->
  create r σ = Normal (x, σ') ->
  dual_key σ'.
Proof.
  intros Hinv Hobj Hne Hc.
  destruct (create_Normal _ _ _ _ _ Hobj Hc) as (-> & Hid & Hname & ->).
  apply JsMap_has_false in Hid, Hname.
  assert (Hnew : JsMap.get (FeatureFlag.id flag)
                   (JsMap.set (FeatureFlag.name flag) r
                      (JsMap.set (FeatureFlag.id flag) r (flags σ))) = Some r).
  { rewrite JsMap_get_set_ne by congruence. apply JsMap_get_set_eq. }
  intros key r' Hget. simpl in *.
  apply JsMap_get_set_inv in Hget as [[-> ->] | [Hk Hget]].
  { exists flag. rewrite JsMap_get_set_eq. auto 6. }
  apply JsMap_get_set_inv in Hget as [[-> ->] | [Hk' Hget]].
  { exists flag. rewrite JsMap_get_set_eq. auto 6. }
  destruct (Hinv key r' Hget) as (f & Hobj' & Hkey & Hgi & Hgn & Hne').
  exists f. repeat split; try assumption.
  - rewrite !JsMap_get_set_ne; [assumption | keys_differ | keys_differ].
  - rewrite !JsMap_get_set_ne; [assumption | keys_differ | keys_differ].
Qed.

Lemma dual_key_delete (σ σ' : State) (r : ref) (flag : FeatureFlag.t) (deleted : bool) :
  dual_key σ ->
  JsMap.get (FeatureFlag.id flag) (flags σ) = Some r ->
  objects σ !! r = Some flag ->
  delete (FeatureFlag.id flag) σ = Normal (deleted, σ') ->
  dual_key σ'.
Proof.
  intros Hinv Hget Hobj Hd.
  destruct (delete_Normal _ _ _ _ _ _ Hget Hobj Hd) as (-> & ->).
  destruct (Hinv _ _ Hget) as (f0 & Hobj0 & _ & _ & Hgn & _).
  assert (f0 = flag) as -> by congruence.
  intros key r' Hget'. simpl in *.
  apply JsMap_get_delete_inv in Hget' as [Hk Hget'].
  apply JsMap_get_delete_inv in Hget' as [Hk' Hget'].
  destruct (Hinv key r' Hget') as (f & Hobj' & Hkey & Hgi & Hgn' & Hne').
  assert (Hrr : r' <> r).
  { intros ->. assert (f = flag) as -> by congruence. tauto. }
  exists f. repeat split; try assumption.
  - rewrite !JsMap_get_delete_ne; [assumption | keys_differ | keys_differ].
  - rewrite !JsMap_get_delete_ne; [assumption | keys_differ | keys_differ].
Qed.

Lemma dual_key_update (σ σ' : State) (key : string) (updates : Updates.t) (now : Z)
    (result : option ref) :
  dual_key σ ->
  Updates.id updates = None ->
  Updates.name updates <> Some "" ->
  update key updates now σ = Normal (result, σ') ->
  dual_key σ'.
Proof.
  intros Hinv Hid Hnonempty Hu.
  destruct (JsMap.get key (flags σ)) as [r|] eqn:Hget.
  2:{ unfold update in Hu. rewrite Hget in Hu. unfold_completion.
      now injection Hu as <- <-. }
  destruct (Hinv _ _ Hget) as (old & Hobj & _ & Hgi & Hgn & Hne).
  assert (Hsame : forall newFlags,
             FeatureFlag.name (Object_assign old updates) = FeatureFlag.name old ->
             newFlags = flags σ ->
             dual_key {| objects := <[r := set_updatedAt (Object_assign old updates) now]>
                                      (objects σ);
                         flags := newFlags |}).
  { intros newFlags Hnm -> k r' Hget'. simpl in *.
    destruct (Hinv k r' Hget') as (f & Hobj' & Hrest).
    destruct (decide (r' = r)) as [->|Hrr].
    - assert (f = old) as -> by congruence.
      eexists. rewrite lookup_insert_eq. split; [reflexivity|]. simpl.
      rewrite Hid, Hnm. exact Hrest.
    - exists f. rewrite lookup_insert_ne by congruence. auto. }
  destruct (Updates.name updates) as [newName|] eqn:Hname.
  2:{ pose proof (update_keeps_keys _ _ _ _ _ _ _ _ Hget Hobj (or_introl Hname) Hu) as Hk.
      unfold update in Hu. rewrite Hget, Hobj, Hname in Hu. unfold_completion.
      injection Hu as <- <-. apply Hsame; [|reflexivity]. simpl. now rewrite Hname. }
  destruct (String.eqb_spec newName (FeatureFlag.name old)) as [->|Hdiff].
  { unfold update in Hu. rewrite Hget, Hobj, Hname in Hu. unfold_completion.
    rewrite String.eqb_refl, andb_false_r in Hu.
    injection Hu as <- <-. apply Hsame; [|reflexivity]. simpl. now rewrite Hname. }
  assert (Hne' : newName <> "") by congruence.
  destruct (update_rename_Normal _ _ _ _ _ _ _ _ _ Hget Hobj Hname Hne' Hdiff Hu)
    as (-> & Hfree & ->).
  apply JsMap_has_false in Hfree.
  assert (Hidkey : JsMap.get (FeatureFlag.id old)
                     (JsMap.set newName r (JsMap.delete (FeatureFlag.name old) (flags σ)))
                   = Some r).
  { rewrite JsMap_get_set_ne by keys_differ.
    now rewrite JsMap_get_delete_ne by congruence. }
  intros k r' Hget'. simpl in *.
  apply JsMap_get_set_inv in Hget' as [[-> ->] | [Hk Hget']].
  { eexists. rewrite lookup_insert_eq. split; [reflexivity|]. simpl.
    rewrite Hid, Hname. simpl. rewrite JsMap_get_set_eq.
    repeat split; auto. keys_differ. }
  apply JsMap_get_delete_inv in Hget' as [Hk' Hget'].
  destruct (Hinv k r' Hget') as (f & Hobj' & Hkey & Hgi' & Hgn' & Hnef).
  destruct (decide (r' = r)) as [->|Hrr].
  - assert (f = old) as -> by congruence.
    eexists. rewrite lookup_insert_eq. split; [reflexivity|]. simpl.
    rewrite Hid, Hname. simpl. rewrite JsMap_get_set_eq.
    repeat split; auto; [tauto | keys_differ].
  - exists f. rewrite lookup_insert_ne by congruence.
    repeat split; try assumption.
    + rewrite JsMap_get_set_ne by keys_differ.
      rewrite JsMap_get_delete_ne; [assumption | keys_differ].
    + rewrite JsMap_get_set_ne by keys_differ.
      rewrite JsMap_get_delete_ne; [assumption | keys_differ].
Qed.

Lemma regular_step_dual_key (σ σ' : State) :
  dual_key σ -> regular_step σ σ' -> dual_key σ'.
Proof.
  intros Hinv Hstep. destruct Hstep.
  - now apply dual_key_construct.
  - eapply dual_key_create; eassumption.
  - eapply dual_key_update; eassumption.
  - eapply dual_key_delete; eassumption.
Qed.

(** Under regular use the dual-key invariant holds in every state. *)
Lemma regular_dual_key (σ : State) : regular σ -> dual_key σ.
Proof.
  induction 1 as [|σ σ' _ IH Hstep].
  - apply dual_key_new.
  - eapply regular_step_dual_key; eassumption.
Qed.

(** C1. The update clause of the dual-key invariant does not hold: it is
    not so that after every successful [update(id, u)] whose [u.name]
    differs from the current name, [findByName] of the old name is absent
    and [findByName(u.name)] returns the flag. [update("id1", {name: ""})]
    on the flag named "f1" succeeds and writes the name "" into the flag,
    but the test [updates.name && ...] skips the move of the name key: the
    old name still resolves to the flag and the new name to nothing. *)
Lemma update_empty_name_keeps_old_key :
  ~ (forall (σ σ' : State) (id : string) (updates : Updates.t) (now : Z)
            (r : ref) (old : FeatureFlag.t) (newName : string),
        JsMap.get id (flags σ) = Some r ->
        objects σ !! r = Some old ->
        Updates.name updates = Some newName ->
        newName <> FeatureFlag.name old ->
        update id updates now σ = Normal (Some r, σ') ->
        findByName (FeatureFlag.name old) σ' = None
        /\ findByName newName σ' = Some r).
Proof.
  intros H.
  assert (Hupdate : update "id1" (rename_to "") 5 st_created
                    = Normal (Some r0, st_unnamed)) by reflexivity.
  assert (Hdiff : "" <> FeatureFlag.name (flag_with "id1" "f1" [])) by discriminate.
  destruct (H st_created st_unnamed "id1" (rename_to "") 5 r0
              (flag_with "id1" "f1" []) "" eq_refl eq_refl eq_refl Hdiff Hupdate)
    as [Hold _].
  (* [findByName "f1" st_unnamed] is [Some r0] *)
  discriminate Hold.
Qed.

(** The run behind it: the call returns the flag, the flag has the empty
    name, and the [Map] is as it was. *)
Example update_to_empty_name :
  update "id1" (rename_to "") 5 st_created = Normal (Some r0, st_unnamed)
  /\ FeatureFlag.name <$> objects st_unnamed !! r0 = Some ""
  /\ flags st_unnamed = flags st_created
  /\ findByName "f1" st_unnamed = Some r0
  /\ findByName "" st_unnamed = None.
Proof. repeat split. Qed.

(** What does hold of the three mutations. After a successful
    [create(flag)], [findById(flag.id)] and [findByName(flag.name)] return
    the same flag object. After a successful [update(id, u)] where [u.name]
    is not empty and differs from the current name, [findByName] of the old
    name is absent and [findByName(u.name)] returns that same object, whose
    name is now [u.name]. After a successful [delete(id)], [findById(id)]
    and [findByName] of the flag's name are absent. *)
Theorem dual_key_invariant :
  (forall (σ σ' : State) (r x : ref) (flag : FeatureFlag.t),
      objects σ !! r = Some flag ->
      create r σ = Normal (x, σ') ->
      x = r
      /\ findById (FeatureFlag.id flag) σ' = Some r
      /\ findByName (FeatureFlag.name flag) σ' = Some r)
  /\ (forall (σ σ' : State) (id : string) (updates : Updates.t) (now : Z)
             (r : ref) (old : FeatureFlag.t) (newName : string) (result : option ref),
      JsMap.get id (flags σ) = Some r ->
      objects σ !! r = Some old ->
      Updates.name updates = Some newName ->
      newName <> "" ->
      newName <> FeatureFlag.name old ->
      update id updates now σ = Normal (result, σ') ->
      result = Some r
      /\ findByName (FeatureFlag.name old) σ' = None
      /\ findByName newName σ' = Some r
      /\ FeatureFlag.name <$> objects σ' !! r = Some newName)
  /\ (forall (σ σ' : State) (id : string) (r : ref) (flag : FeatureFlag.t)
             (deleted : bool),
      JsMap.get id (flags σ) = Some r ->
      objects σ !! r = Some flag ->
      delete id σ = Normal (deleted, σ') ->
      deleted = true
      /\ findById id σ' = None
      /\ findByName (FeatureFlag.name flag) σ' = None).
Proof.
  split; [|split].
  - intros σ σ' r x flag Hobj Hc.
    destruct (create_Normal _ _ _ _ _ Hobj Hc) as (-> & _).
    destruct (create_both_keys _ _ _ _ _ Hobj Hc). auto.
  - intros σ σ' id updates now r old newName result Hget Hobj Hname Hne Hdiff Hu.
    destruct (update_rename_Normal _ _ _ _ _ _ _ _ _ Hget Hobj Hname Hne Hdiff Hu)
      as (-> & _ & ->).
    unfold findByName. simpl. repeat split.
    + rewrite JsMap_get_set_ne by assumption. apply JsMap_get_delete_eq.
    + apply JsMap_get_set_eq.
    + rewrite lookup_insert_eq. simpl. now rewrite Hname.
  - intros σ σ' id r flag deleted Hget Hobj Hd.
    destruct (delete_Normal _ _ _ _ _ _ Hget Hobj Hd) as (-> & ->).
    unfold findById, findByName. simpl. repeat split.
    + apply JsMap_get_delete_None, JsMap_get_delete_eq.
    + apply JsMap_get_delete_eq.
Qed.

Lemma dual_key_invariant_witness :
  (findById "id1" st_created = Some r0 /\ findByName "f1" st_created = Some r0)
  /\ (findByName "f1" st_renamed = None /\ findByName "f2" st_renamed = Some r0)
  /\ (findById "id1" st_deleted = None /\ findByName "f2" st_deleted = None).
Proof.
  destruct dual_key_invariant as (Hcreate & Hupdate & Hdelete).
  split; [|split].
  - destruct (Hcreate st_empty st_created r0 r0 (flag_with "id1" "f1" []))
      as (_ & Hid & Hname); [reflexivity | reflexivity |]. split; assumption.
  - destruct (Hupdate st_created st_renamed "id1" (rename_to "f2") 5 r0
                (flag_with "id1" "f1" []) "f2" (Some r0))
      as (_ & Hold & Hnew & _);
      [reflexivity | reflexivity | reflexivity | discriminate | discriminate
      | reflexivity |].
    split; assumption.
  - destruct (Hdelete st_renamed st_deleted "id1" r0
                (set_updatedAt (Object_assign (flag_with "id1" "f1" []) (rename_to "f2")) 5)
                true)
      as (_ & Hid & Hname); [reflexivity | reflexivity | reflexivity |].
    split; assumption.
Defined.

Lemma regular_reachable (σ : State) : regular σ -> reachable σ.
Proof.
  induction 1 as [|σ σ' _ IH Hstep]; [constructor|].
  apply (reachable_next σ); [assumption|].
  destruct Hstep; [now constructor | | |];
    [eapply any_create | eapply any_update | eapply any_delete]; eassumption.
Qed.

Lemma reachable_st_ab : reachable st_ab.
Proof.
  apply (reachable_next st_aa).
  apply (reachable_next (FeatureFlagRepository.new objs_aa)).
  apply (reachable_next (FeatureFlagRepository.new ∅)).
  - constructor.
  - apply (any_construct (FeatureFlagRepository.new ∅) r0 (flag_with "a" "a" [])).
    reflexivity.
  - apply (any_create _ _ r0 r0). reflexivity.
  - apply (any_update _ _ "a" (rename_to "b") 5 (Some r0)). reflexivity.
Qed.

(** C10. It is not so that in every state the repository can reach, every
    stored flag is returned by [findById(flag.name)] and by
    [findByName(flag.id)] and has [exists(flag.name)] true. After [create]
    of the flag with id "a" and name "a" and [update("a", {name: "b"})],
    [update] has deleted the one key "a" as the old name key: the flag is
    stored under "b" alone, and [findByName(flag.id)] is absent. *)
Lemma stored_flag_not_found_by_id :
  ~ (forall (σ : State) (key : string) (r : ref) (flag : FeatureFlag.t),
        reachable σ ->
        JsMap.get key (flags σ) = Some r ->
        objects σ !! r = Some flag ->
        findById (FeatureFlag.name flag) σ = Some r
        /\ findByName (FeatureFlag.id flag) σ = Some r
        /\ exists_ (FeatureFlag.name flag) σ = true).
Proof.
  intros H.
  destruct (H st_ab "b" r0 flag_ab reachable_st_ab eq_refl eq_refl)
    as (_ & Hid & _).
  (* [findByName "a" st_ab] is [None] *)
  discriminate Hid.
Qed.

(** What does hold of the lookups. [findById] and [findByName] are one
    lookup in the one [Map]: they agree on every key, and a key that holds a
    flag is found by both and exists. Right after a successful
    [create(flag)], and for every stored flag in every state of regular use
    (flags created with an id different from their name, updates that carry
    no id and whose new name, if any, is not empty, deletes by id),
    [findById(flag.name)] and [findByName(flag.id)] return that flag and
    [exists(flag.name)] is true. *)
Theorem lookups_ignore_key_kind :
  (forall (key : string) (σ : State), findById key σ = findByName key σ)
  /\ (forall (key : string) (σ : State) (r : ref),
      JsMap.get key (flags σ) = Some r ->
      findById key σ = Some r /\ findByName key σ = Some r /\ exists_ key σ = true)
  /\ (forall (σ σ' : State) (r x : ref) (flag : FeatureFlag.t),
      objects σ !! r = Some flag ->
      create r σ = Normal (x, σ') ->
      findById (FeatureFlag.name flag) σ' = Some r
      /\ findByName (FeatureFlag.id flag) σ' = Some r
      /\ exists_ (FeatureFlag.name flag) σ' = true)
  /\ (forall (σ : State) (key : string) (r : ref) (flag : FeatureFlag.t),
      regular σ ->
      JsMap.get key (flags σ) = Some r ->
      objects σ !! r = Some flag ->
      findById (FeatureFlag.name flag) σ = Some r
      /\ findByName (FeatureFlag.id flag) σ = Some r
      /\ exists_ (FeatureFlag.name flag) σ = true).
Proof.
  split; [reflexivity|]. split; [|split].
  - intros key σ r Hget. unfold findById, findByName, exists_, JsMap.has.
    now rewrite Hget.
  - intros σ σ' r x flag Hobj Hc.
    destruct (create_both_keys _ _ _ _ _ Hobj Hc) as [Hid Hname].
    unfold findById, findByName, exists_, JsMap.has. now rewrite Hid, Hname.
  - intros σ key r flag Hreg Hget Hobj.
    destruct (regular_dual_key σ Hreg key r Hget) as (f & Hobj' & _ & Hid & Hname & _).
    assert (f = flag) as -> by congruence.
    unfold findById, findByName, exists_, JsMap.has. now rewrite Hid, Hname.
Qed.

Lemma regular_st_renamed : regular st_renamed.
Proof.
  apply (regular_next st_created).
  apply (regular_next st_empty).
  apply (regular_next (FeatureFlagRepository.new ∅)).
  - constructor.
  - apply (step_construct (FeatureFlagRepository.new ∅) r0 (flag_with "id1" "f1" [])).
    reflexivity.
  - apply (step_create _ _ r0 (flag_with "id1" "f1" []));
      [reflexivity | discriminate | reflexivity].
  - apply (step_update _ _ "id1" (rename_to "f2") 5 (Some r0));
      [reflexivity | discriminate | reflexivity].
Defined.

Lemma lookups_ignore_key_kind_witness :
  (findById "f1" st_created = Some r0
   /\ findByName "id1" st_created = Some r0
   /\ exists_ "f1" st_created = true)
  /\ (findById "f2" st_renamed = Some r0
     /\ findByName "id1" st_renamed = Some r0
     /\ exists_ "f2" st_renamed = true).
Proof.
  destruct lookups_ignore_key_kind as (_ & _ & Hcreate & Hregular).
  split.
  - apply (Hcreate st_empty st_created r0 r0 (flag_with "id1" "f1" []));
      reflexivity.
  - apply (Hregular st_renamed "id1" r0
             (set_updatedAt (Object_assign (flag_with "id1" "f1" []) (rename_to "f2")) 5)
             regular_st_renamed); reflexivity.
Defined.

(** *** What [list] and [count] make of the two entries of a flag *)

Lemma Array_slice_all {A} (l : Datatypes.list A) (n : nat) :
  (length l <= n)%nat -> Array_slice l 0 (0 + Z.of_nat n) = l.
Proof.
  intros Hlen. unfold Array_slice. simpl.
  rewrite (Z.min_l 0) by lia.
  destruct (Z.ltb_spec (0 + Z.of_nat n) 0) as [?|_]; [lia|].
  rewrite Z.min_r by lia. rewrite Z.sub_0_r, Nat2Z.id. simpl.
  apply firstn_all.
Qed.

Lemma filter_length_le {A} (f : A -> bool) (l : Datatypes.list A) :
  (length (List.filter f l) <= length l)%nat.
Proof.
  induction l as [|a l IH]; simpl; [lia|]. destruct (f a); simpl; lia.
Qed.

(** Whatever the repository held before, the unpaginated listing after a
    successful [create] of a flag with two different non-empty keys ends
    with that flag, twice. *)
Lemma list_holds_created_flag_twice (σ σ' : State) (r x : ref) (flag : FeatureFlag.t) :
  objects σ !! r = Some flag ->
  FeatureFlag.id flag <> "" ->
  FeatureFlag.name flag <> "" ->
  FeatureFlag.id flag <> FeatureFlag.name flag ->
  create r σ = Normal (x, σ') ->
  exists before,
    list {| ListOptions.limit := Some (Z.of_nat (length (flags σ')));
            ListOptions.offset := None;
            ListOptions.search := None |} σ'
    = before ++ [r; r].
Proof.
  intros Hobj Hid Hname Hne Hc.
  destruct (create_Normal _ _ _ _ _ Hobj Hc) as (_ & Hfid & Hfname & ->).
  unfold list, apply_search. simpl.
  rewrite Array_slice_all.
  2:{ etransitivity; [apply filter_length_le|].
      unfold JsMap.values. now rewrite length_map. }
  assert (Hfname' : JsMap.has (FeatureFlag.name flag)
                      (JsMap.set (FeatureFlag.id flag) r (flags σ)) = false).
  { unfold JsMap.has. rewrite JsMap_get_set_ne by assumption.
    now rewrite (JsMap_has_false _ _ Hfname). }
  rewrite (JsMap_set_fresh _ _ _ Hfname'), (JsMap_set_fresh _ _ _ Hfid).
  rewrite <- app_assoc. simpl. unfold JsMap.values.
  rewrite map_app, List.filter_app. simpl.
  assert (Hflag : is_flag (with_flags σ (flags σ ++ [(FeatureFlag.id flag, r);
                                                      (FeatureFlag.name flag, r)])) r
                  = true).
  { unfold is_flag. simpl. rewrite Hobj. simpl.
    apply String.eqb_neq in Hid, Hname. now rewrite Hid, Hname. }
  unfold with_flags in *. simpl in *. rewrite Hflag. eauto.
Qed.

(** [count] passes over every entry of a flag whose id is not a key. *)
Lemma count_skips_flag_without_id_key (σ : State) (r : ref) (flag : FeatureFlag.t) :
  objects σ !! r = Some flag ->
  JsMap.get (FeatureFlag.id flag) (flags σ) = None ->
  ~ In r (map snd (List.filter (is_id_entry σ) (JsMap.entries (flags σ)))).
Proof.
  intros Hobj Hnone Hin. apply JsMap_get_None_keys in Hnone. apply Hnone.
  apply in_map_iff in Hin as ([k r'] & Hr & Hin). simpl in Hr. subst r'.
  apply filter_In in Hin as [Hin Hentry].
  unfold is_id_entry in Hentry. simpl in Hentry. rewrite Hobj in Hentry.
  apply andb_true_iff in Hentry as [_ Heq]. apply String.eqb_eq in Heq.
  rewrite Heq. unfold JsMap.keys, JsMap.entries in *.
  apply in_map_iff. now exists (k, r).
Qed.

(** A flag created with one string as id and name and then renamed is
    stored under its new name and is not counted, in any repository. *)
Lemma renamed_flag_is_not_counted (σ σ1 σ2 : State) (r x : ref) (flag : FeatureFlag.t)
    (updates : Updates.t) (newName : string) (now : Z) (result : option ref) :
  objects σ !! r = Some flag ->
  FeatureFlag.id flag = FeatureFlag.name flag ->
  Updates.id updates = None ->
  Updates.name updates = Some newName ->
  newName <> "" ->
  newName <> FeatureFlag.name flag ->
  create r σ = Normal (x, σ1) ->
  update (FeatureFlag.id flag) updates now σ1 = Normal (result, σ2) ->
  findByName newName σ2 = Some r
  /\ ~ In r (map snd (List.filter (is_id_entry σ2) (JsMap.entries (flags σ2)))).
Proof.
  intros Hobj Hsame Hid Hname Hne Hdiff Hc Hu.
  destruct (create_both_keys _ _ _ _ _ Hobj Hc) as [Hgid _].
  destruct (create_Normal _ _ _ _ _ Hobj Hc) as (_ & _ & _ & Hσ1).
  assert (Hobj1 : objects σ1 !! r = Some flag) by now rewrite Hσ1.
  destruct (update_rename_Normal _ _ _ _ _ _ _ _ _ Hgid Hobj1 Hname Hne Hdiff Hu)
    as (_ & _ & ->).
  split.
  - unfold findByName. simpl. apply JsMap_get_set_eq.
  - eapply count_skips_flag_without_id_key; simpl.
    + apply lookup_insert_eq.
    + simpl. rewrite Hid. simpl. rewrite JsMap_get_set_ne by congruence.
      rewrite Hsame. apply JsMap_get_delete_eq.
Qed.

(** C2. [list] does not deduplicate: after [create] of one flag with id
    "id1" and name "f1" on a new repository, [list()] returns that flag
    twice, once for each of its two entries, while [count()] is 1. *)
Theorem list_returns_flag_twice :
  create_then_list = Normal ([r0; r0], 1%nat).
Proof. reflexivity. Qed.

(** C6. [count] misses a stored flag whose id key is gone: after [create]
    of a flag with id "a" and name "a" and [update("a", {name: "b"})],
    [count()] is 0 although the flag is stored, listed and found by name. *)
Theorem count_misses_renamed_flag :
  create_rename_then_count = Normal (0%nat, [r0], Some r0).
Proof. reflexivity. Qed.

(** ** The behaviour on the cases of the unit tests *)

Example clamp_below : PercentageRule.percentage (PercentageRule.new "r" (-10) true 0) = 0.
Proof. reflexivity. Qed.

Example clamp_above : PercentageRule.percentage (PercentageRule.new "r" 150 true 0) = 100.
Proof. reflexivity. Qed.

Example percentage_0_never :
  forall context, PercentageRule.evaluate (PercentageRule.new "r" 0 true 0) context = false.
Proof. reflexivity. Qed.

Example percentage_100_always :
  forall context, PercentageRule.evaluate (PercentageRule.new "r" 100 true 0) context = true.
Proof. reflexivity. Qed.

Example bucket_user1_company1 : PercentageRule.bucket_of ctx_user1_company1 = 48.
Proof. reflexivity. Qed.

Example empty_rules_fall_back :
  evaluate (Some (flag_with "id1" "f1" [])) (Some ctx_user1_company1) 0 0
  = Normal {| EvaluationResult.enabled := false;
              EvaluationResult.matchedRule := None;
              EvaluationResult.fallbackToDefault := true;
              EvaluationResult.evaluationTime := 0 |}.
Proof. reflexivity. Qed.

Example empty_userId_falls_back :
  evaluate (Some (flag_with "id1" "f1" [rule_company1]))
    (Some {| EvaluationContext.userId := Some "";
             EvaluationContext.tenantId := Some "company1";
             EvaluationContext.additionalData := [] |}) 0 0
  = Normal {| EvaluationResult.enabled := false;
              EvaluationResult.matchedRule := None;
              EvaluationResult.fallbackToDefault := true;
              EvaluationResult.evaluationTime := 0 |}.
Proof. reflexivity. Qed.

Example create_duplicate_id_conflicts :
  create r0 st_created = Throw "Feature flag with ID id1 already exists".
Proof. reflexivity. Qed.

Example delete_unknown_id : delete "non-existent" st_created = Normal (false, st_created).
Proof. reflexivity. Qed.

(** * Further properties *)

(** ** Rules and flags as plain objects *)

Lemma string_or_nonempty (s alt : string) : s <> "" -> string_or (Some s) alt = s.
Proof.
  intros H. unfold string_or. simpl. apply String.eqb_neq in H. now rewrite H.
Qed.

Lemma fromJSON_toJSON_rule (rule : Rule.t) (uuid : string) (now : Z) :
  serializable rule ->
  Rule.fromJSON (Rule.toJSON rule) uuid now = Normal rule.
Proof.
  intros (Hc & Hid & Hp). destruct rule as [r|r|r|r]; simpl in *;
    try discriminate Hc; unfold Rule.fromJSON; simpl.
  - rewrite string_or_nonempty by assumption.
    destruct r as [i t [|] c]; reflexivity.
  - rewrite string_or_nonempty by assumption.
    destruct r as [i u [|] c]; reflexivity.
  - rewrite string_or_nonempty by assumption.
    specialize (Hp r eq_refl). unfold PercentageRule.new.
    rewrite Z.min_r, Z.max_r by lia.
    destruct r as [i p [|] c]; reflexivity.
Qed.

Lemma convert_rules_toJSON (rules : Datatypes.list Rule.t) (fresh : nat -> string * Z)
    (index : nat) :
  Forall serializable rules ->
  FeatureFlag.convert_rules
    (map (fun rule => FlagData.Plain (Rule.toJSON rule)) rules) fresh index
  = Normal rules.
Proof.
  intros H. revert index. induction H as [|rule rules Hr _ IH]; intros index; simpl.
  - reflexivity.
  - rewrite fromJSON_toJSON_rule by assumption. unfold_completion.
    now rewrite IH.
Qed.

(** X1. Reading back what [toJSON] wrote gives the value itself: a rule of
    one of the three variants whose id is not empty and whose percentage, if
    any, lies in [0,100] comes back from [Rule.fromJSON] unchanged, and a
    flag all of whose rules are such comes back from the constructor
    unchanged, rules in the same order. No id is drawn and no clock read. *)
Theorem toJSON_round_trip (flag : FeatureFlag.t) (uuid : string)
    (createdNow updatedNow : Z) (fresh : nat -> string * Z) :
  Forall serializable (FeatureFlag.rules flag) ->
  Forall (fun rule => Rule.fromJSON (Rule.toJSON rule) uuid createdNow = Normal rule)
    (FeatureFlag.rules flag)
  /\ FeatureFlag.new (FeatureFlag.toJSON flag) uuid createdNow updatedNow fresh
    = Normal flag.
Proof.
  intros H. split.
  - eapply Forall_impl; [exact H|]. intros rule Hr. now apply fromJSON_toJSON_rule.
  - unfold FeatureFlag.new. simpl.
    rewrite convert_rules_toJSON by assumption. unfold_completion.
    now destruct flag.
Qed.

Ltac solve_serializable :=
  split; [reflexivity | split; [discriminate |]];
  let r := fresh "r" in let H := fresh "H" in
  intros r H; first [discriminate H | injection H as <-; simpl; lia].

Lemma toJSON_round_trip_witness :
  FeatureFlag.new (FeatureFlag.toJSON flag_three_rules) "fresh" 98 99 no_fresh
  = Normal flag_three_rules.
Proof.
  apply (toJSON_round_trip flag_three_rules "fresh" 98 99 no_fresh).
  repeat (apply List.Forall_cons; [solve_serializable|]). apply List.Forall_nil.
Defined.

Lemma fromJSON_Normal_iff (data : RuleData.t) (uuid : string) (now : Z) :
  (exists rule, Rule.fromJSON data uuid now = Normal rule) <-> known_type data.
Proof.
  unfold known_type, Rule.fromJSON.
  destruct (RuleData.type data) as [type|] eqn:Htype; simpl.
  2:{ split; [intros [rule H]|intros [ty H]]; discriminate. }
  destruct (String.eqb_spec type "tenant") as [->|H1].
  { split; [exists TENANT|]; eauto. }
  destruct (String.eqb_spec type "user") as [->|H2].
  { split; [exists USER|]; eauto. }
  destruct (String.eqb_spec type "percentage") as [->|H3].
  { split; [exists PERCENTAGE|]; eauto. }
  split.
  - intros [rule H]. discriminate.
  - intros [[| |] [= ->]]; contradiction.
Qed.

(** X2. [Rule.fromJSON] returns a rule exactly when [data.type] is one of
    "tenant", "user" and "percentage"; for any other type, and for a missing
    one, it throws "Unknown rule type: " followed by the type. *)
Theorem Rule_fromJSON_unknown_type (data : RuleData.t) (uuid : string) (now : Z) :
  ((exists rule, Rule.fromJSON data uuid now = Normal rule) <-> known_type data)
  /\ (~ known_type data ->
      Rule.fromJSON data uuid now
      = Throw ("Unknown rule type: " +:+ to_string (RuleData.type data))).
Proof.
  split; [apply fromJSON_Normal_iff|].
  intros Hunknown.
  destruct (Rule.fromJSON data uuid now) as [rule|e] eqn:E.
  { exfalso. apply Hunknown. apply (fromJSON_Normal_iff data uuid now). eauto. }
  revert E. unfold Rule.fromJSON.
  destruct (RuleData.type data) as [type|]; simpl; [|congruence].
  repeat (destruct (String.eqb type _); [discriminate|]). congruence.
Qed.

Lemma Rule_fromJSON_unknown_type_witness :
  Rule.fromJSON data_unknown "fresh" 99 = Throw "Unknown rule type: region".
Proof.
  apply (proj2 (Rule_fromJSON_unknown_type data_unknown "fresh" 99)).
  intros [[| |] H]; discriminate H.
Defined.

(** X3. Whatever the data, a rule that [Rule.fromJSON] returns is one of the
    three variants, is enabled unless [data.enabled] is [false], has a
    percentage in [0,100] if it is a percentage rule, and has a non-empty id
    as long as the id drawn for a missing or empty one is not empty. *)
Theorem Rule_fromJSON_well_formed (data : RuleData.t) (uuid : string) (now : Z)
    (rule : Rule.t) :
  Rule.fromJSON data uuid now = Normal rule ->
  Rule.concrete rule = true
  /\ Rule.enabled rule = RuleData.enabled_not_false data
  /\ (forall r, rule = Rule.Percentage r -> 0 <= PercentageRule.percentage r <= 100)
  /\ (uuid <> "" -> Rule.id rule <> "").
Proof.
  assert (Hid : uuid <> "" -> string_or (RuleData.id data) uuid <> "").
  { intros Hu. unfold string_or. destruct (truthy (RuleData.id data)) eqn:Ht; [|assumption].
    apply truthy_nonempty in Ht as (v & -> & Hv). exact Hv. }
  unfold Rule.fromJSON. destruct (RuleData.type data) as [type|]; [|discriminate].
  destruct (String.eqb type _);
    [intros [= <-]; simpl; split; [|split; [|split]]; auto; discriminate|].
  destruct (String.eqb type _);
    [intros [= <-]; simpl; split; [|split; [|split]]; auto; discriminate|].
  destruct (String.eqb type _); [|discriminate].
  intros [= <-]. simpl. split; [|split; [|split]]; auto.
  intros r [= <-]. simpl. lia.
Qed.

Lemma Rule_fromJSON_well_formed_witness :
  let rule := Rule.Tenant {| TenantRule.id := "fresh"; TenantRule.tenantIds := ["company1"];
                             TenantRule.enabled := true; TenantRule.createdAt := 99 |} in
  Rule.concrete rule = true
  /\ Rule.enabled rule = RuleData.enabled_not_false data_tenant
  /\ (forall r, rule = Rule.Percentage r -> 0 <= PercentageRule.percentage r <= 100)
  /\ ("fresh" <> "" -> Rule.id rule <> "").
Proof.
  intros rule. apply (Rule_fromJSON_well_formed data_tenant "fresh" 99 rule).
  reflexivity.
Defined.

(** X4. The static [fromJSON] of [FeatureFlag] builds a rule, not a flag: it
    is [Rule.fromJSON] on the data without its [createdAt]. On data that has
    no [type], as the plain object of a flag has none, it throws
    "Unknown rule type: undefined". *)
Theorem FeatureFlag_fromJSON_builds_rules (data : RuleData.t) (uuid : string) (now : Z) :
  FeatureFlag.fromJSON data uuid now = Rule.fromJSON (without_createdAt data) uuid now
  /\ (RuleData.type data = None ->
      FeatureFlag.fromJSON data uuid now = Throw "Unknown rule type: undefined").
Proof.
  split.
  - unfold FeatureFlag.fromJSON, Rule.fromJSON. simpl.
    destruct (RuleData.type data) as [type|]; reflexivity.
  - intros H. unfold FeatureFlag.fromJSON. now rewrite H.
Qed.

Lemma FeatureFlag_fromJSON_builds_rules_witness :
  FeatureFlag.fromJSON (without_createdAt (BaseRule.toJSON
     {| BaseRule.id := "id1"; BaseRule.type := None; BaseRule.enabled := true;
        BaseRule.createdAt := 0 |})) "fresh" 99
  = Throw "Unknown rule type: undefined".
Proof.
  apply (proj2 (FeatureFlag_fromJSON_builds_rules _ "fresh" 99)). reflexivity.
Defined.

Lemma convert_rules_inv (args : Datatypes.list FlagData.rule_arg)
    (fresh : nat -> string * Z) (index : nat) (rules : Datatypes.list Rule.t) :
  FeatureFlag.convert_rules args fresh index = Normal rules ->
  length rules = length args
  /\ forall (i : nat) (arg : FlagData.rule_arg),
      args !! i = Some arg ->
      exists rule,
        rules !! i = Some rule
        /\ match arg with
           | FlagData.Instance given => rule = given
           | FlagData.Plain data =>
             Rule.fromJSON data (fresh (index + i)%nat).1 (fresh (index + i)%nat).2
             = Normal rule
           end.
Proof.
  revert index rules. induction args as [|arg args IH]; intros index rules; simpl.
  - intros [= <-]. split; [reflexivity|]. intros i a H. discriminate.
  - destruct (match arg with
              | FlagData.Instance rule => Normal rule
              | FlagData.Plain data => Rule.fromJSON data (fresh index).1 (fresh index).2
              end) as [rule|e] eqn:Hhead; unfold_completion; [|discriminate].
    destruct (FeatureFlag.convert_rules args fresh (S index)) as [rs|e] eqn:Htail;
      [|discriminate].
    intros [= <-]. destruct (IH _ _ Htail) as [Hlen Hnth].
    split; [simpl; now rewrite Hlen|].
    intros [|i] a Ha; simpl in Ha.
    + injection Ha as <-. exists rule. split; [reflexivity|].
      rewrite Nat.add_0_r. destruct arg; [congruence | exact Hhead].
    + destruct (Hnth i a Ha) as (r & Hr & Hra). exists r. split; [exact Hr|].
      now rewrite Nat.add_succ_r.
Qed.

Lemma convert_rules_Normal_iff (args : Datatypes.list FlagData.rule_arg)
    (fresh : nat -> string * Z) (index : nat) :
  (exists rules, FeatureFlag.convert_rules args fresh index = Normal rules)
  <-> Forall convertible args.
Proof.
  revert index. induction args as [|arg args IH]; intros index; simpl.
  - split; eauto.
  - split.
    + intros [rules H].
      destruct (match arg with
                | FlagData.Instance rule => Normal rule
                | FlagData.Plain data => Rule.fromJSON data (fresh index).1 (fresh index).2
                end) as [rule|e] eqn:Hhead; unfold_completion; [|discriminate].
      destruct (FeatureFlag.convert_rules args fresh (S index)) as [rs|e] eqn:Htail;
        [|discriminate].
      constructor.
      * destruct arg as [given|data]; simpl; [exact I|].
        apply (fromJSON_Normal_iff data (fresh index).1 (fresh index).2). eauto.
      * apply (IH (S index)). eauto.
    + intros H. apply Forall_cons in H as [Harg Hargs].
      apply (IH (S index)) in Hargs as [rs Hrs].
      assert (Hhead : exists rule,
                 match arg with
                 | FlagData.Instance rule => Normal rule
                 | FlagData.Plain data => Rule.fromJSON data (fresh index).1 (fresh index).2
                 end = Normal rule).
      { destruct arg as [given|data]; simpl in *; [eauto|].
        now apply fromJSON_Normal_iff. }
      destruct Hhead as [rule ->]. unfold_completion. rewrite Hrs. eauto.
Qed.

(** X5. The constructor returns a flag exactly when every plain object among
    the given rules has a known type. The flag then has as many rules as
    were given, in the given order: a [Rule] instance is kept as it is, a
    plain object is replaced by what [Rule.fromJSON] makes of it. *)
Theorem FeatureFlag_new_rules (data : FlagData.t) (uuid : string)
    (createdNow updatedNow : Z) (fresh : nat -> string * Z) :
  ((exists flag, FeatureFlag.new data uuid createdNow updatedNow fresh = Normal flag)
   <-> Forall convertible (default [] (FlagData.rules data)))
  /\ forall flag,
      FeatureFlag.new data uuid createdNow updatedNow fresh = Normal flag ->
      length (FeatureFlag.rules flag) = length (default [] (FlagData.rules data))
      /\ forall (i : nat) (arg : FlagData.rule_arg),
          default [] (FlagData.rules data) !! i = Some arg ->
          exists rule,
            FeatureFlag.rules flag !! i = Some rule
            /\ match arg with
               | FlagData.Instance given => rule = given
               | FlagData.Plain plain =>
                 Rule.fromJSON plain (fresh i).1 (fresh i).2 = Normal rule
               end.
Proof.
  unfold FeatureFlag.new. split; [split|].
  - intros [flag H]. apply (convert_rules_Normal_iff _ fresh 0%nat).
    destruct (FeatureFlag.convert_rules _ fresh 0) as [rs|e]; [eauto|discriminate].
  - intros H. apply (convert_rules_Normal_iff _ fresh 0%nat) in H as [rs ->].
    unfold_completion. eauto.
  - intros flag H.
    destruct (FeatureFlag.convert_rules _ fresh 0) as [rs|e] eqn:Hrs;
      unfold_completion; [|discriminate].
    injection H as <-. simpl. exact (convert_rules_inv _ _ _ _ Hrs).
Qed.

Lemma FeatureFlag_new_rules_witness :
  exists flag,
    FeatureFlag.new
      {| FlagData.id := None; FlagData.name := "f1"; FlagData.description := None;
         FlagData.enabled := None;
         FlagData.rules := Some [FlagData.Instance rule_user1; FlagData.Plain data_tenant];
         FlagData.createdAt := None; FlagData.updatedAt := None |}
      "fresh" 98 99 no_fresh
    = Normal flag.
Proof.
  apply (proj1 (FeatureFlag_new_rules _ "fresh" 98 99 no_fresh)). simpl.
  apply List.Forall_cons; [exact I|].
  apply List.Forall_cons; [now exists TENANT|]. apply List.Forall_nil.
Defined.

(** ** Flags under their own methods, seen through the engine *)

Lemma evaluateRules_found (rules : Datatypes.list Rule.t) (context : EvaluationContext.t)
    (rule : Rule.t) :
  snd (_evaluateRules rules context) = Some rule ->
  In rule rules /\ Rule.evaluate rule context = Normal true.
Proof.
  induction rules as [|r rules IH]; simpl; [discriminate|].
  destruct (Rule.evaluate r context) as [[|]|e] eqn:E; simpl.
  - intros [= <-]. auto.
  - destruct (_evaluateRules rules context). simpl in *. intros H.
    destruct (IH H). auto.
  - destruct (_evaluateRules rules context). simpl in *. intros H.
    destruct (IH H). auto.
Qed.

Lemma evaluateRules_app (l1 l2 : Datatypes.list Rule.t) (context : EvaluationContext.t) :
  snd (_evaluateRules (l1 ++ l2) context)
  = match snd (_evaluateRules l1 context) with
    | Some rule => Some rule
    | None => snd (_evaluateRules l2 context)
    end.
Proof.
  induction l1 as [|r l1 IH]; simpl; [reflexivity|].
  destruct (try_catch (Rule.evaluate r context) _) as [[|]|]; simpl;
    try reflexivity;
    destruct (_evaluateRules (l1 ++ l2) context), (_evaluateRules l1 context);
    exact IH.
Qed.

Lemma matching_rule_is_enabled (rule : Rule.t) (context : EvaluationContext.t) :
  Rule.evaluate rule context = Normal true ->
  Rule.concrete rule = true /\ Rule.enabled rule = true.
Proof.
  destruct rule as [r|r|r|r]; simpl; [discriminate| | |]; intros [= H];
    (split; [reflexivity|]).
  - unfold TenantRule.evaluate in H. now destruct (TenantRule.enabled r).
  - unfold UserRule.evaluate in H. now destruct (UserRule.enabled r).
  - unfold PercentageRule.evaluate in H. now destruct (PercentageRule.enabled r).
Qed.

(** X6. Whatever [evaluate] returns for a flag object and a context object
    is consistent: it is a fallback exactly when no rule is named; a rule
    that is named is one of the flag's rules, of one of the three variants,
    enabled, and its own [evaluate] returns true in that context, and the
    result is then enabled; without a named rule the result carries the
    flag's default; the time is the difference of the two clock readings. *)
Theorem evaluate_result_consistent (flag : FeatureFlag.t) (context : EvaluationContext.t)
    (startTime endTime : Z) (result : EvaluationResult.t) :
  evaluate (Some flag) (Some context) startTime endTime = Normal result ->
  (EvaluationResult.fallbackToDefault result = true
   <-> EvaluationResult.matchedRule result = None)
  /\ (forall rule, EvaluationResult.matchedRule result = Some rule ->
        EvaluationResult.enabled result = true
        /\ In rule (FeatureFlag.rules flag)
        /\ Rule.evaluate rule context = Normal true
        /\ Rule.concrete rule = true
        /\ Rule.enabled rule = true)
  /\ (EvaluationResult.matchedRule result = None ->
        EvaluationResult.enabled result = FeatureFlag.enabled flag)
  /\ EvaluationResult.evaluationTime result = endTime - startTime.
Proof.
  rewrite evaluate_objects. intros [= <-].
  destruct (truthy (EvaluationContext.userId context)
            && truthy (EvaluationContext.tenantId context)); simpl.
  2:{ repeat split; auto; discriminate. }
  destruct (snd (_evaluateRules (FeatureFlag.rules flag) context)) as [m|] eqn:Hm; simpl.
  - destruct (evaluateRules_found _ _ _ Hm) as [Hin Hev].
    destruct (matching_rule_is_enabled _ _ Hev) as [Hc He].
    split; [split; discriminate|]. split; [|split; [discriminate|reflexivity]].
    intros rule [= <-]. auto.
  - repeat split; auto; discriminate.
Qed.

Lemma evaluate_result_consistent_witness :
  let result := {| EvaluationResult.enabled := true;
                   EvaluationResult.matchedRule := Some rule_user1;
                   EvaluationResult.fallbackToDefault := false;
                   EvaluationResult.evaluationTime := 2 |} in
  (EvaluationResult.fallbackToDefault result = true
   <-> EvaluationResult.matchedRule result = None)
  /\ (forall rule, EvaluationResult.matchedRule result = Some rule ->
        EvaluationResult.enabled result = true
        /\ In rule (FeatureFlag.rules flag_three_rules)
        /\ Rule.evaluate rule ctx_user1_company1 = Normal true
        /\ Rule.concrete rule = true
        /\ Rule.enabled rule = true)
  /\ (EvaluationResult.matchedRule result = None ->
        EvaluationResult.enabled result = FeatureFlag.enabled flag_three_rules)
  /\ EvaluationResult.evaluationTime result = 12 - 10.
Proof.
  intros result.
  apply (evaluate_result_consistent flag_three_rules ctx_user1_company1 10 12 result).
  reflexivity.
Defined.

(** X7. With a flag object and a context object whose [userId] or
    [tenantId] is missing or empty, [evaluate] does not look at the rules:
    it returns the flag's default as a fallback, even if a rule would match. *)
Theorem invalid_context_falls_back (flag : FeatureFlag.t) (context : EvaluationContext.t)
    (startTime endTime : Z) :
  truthy (EvaluationContext.userId context) = false
  \/ truthy (EvaluationContext.tenantId context) = false ->
  evaluate (Some flag) (Some context) startTime endTime
  = Normal {| EvaluationResult.enabled := FeatureFlag.enabled flag;
              EvaluationResult.matchedRule := None;
              EvaluationResult.fallbackToDefault := true;
              EvaluationResult.evaluationTime := endTime - startTime |}.
Proof.
  intros H. apply evaluate_invalid_context. intros [Hu Ht].
  apply truthy_nonempty in Hu, Ht. destruct H; congruence.
Qed.

Lemma invalid_context_falls_back_witness :
  evaluate (Some (flag_with "id1" "f1" [rule_company1])) (Some ctx_no_user) 10 12
  = Normal {| EvaluationResult.enabled := false;
              EvaluationResult.matchedRule := None;
              EvaluationResult.fallbackToDefault := true;
              EvaluationResult.evaluationTime := 2 |}.
Proof.
  apply (invalid_context_falls_back (flag_with "id1" "f1" [rule_company1]) ctx_no_user 10 12).
  left. reflexivity.
Defined.

(** X8. [addRule] gives the new rule the lowest precedence. With a valid
    context, when a rule of the flag already matches, evaluation returns the
    same result after [addRule]; when none does, the added rule is the
    matched rule if its [evaluate] returns true, and otherwise the result is
    again the same. *)
Theorem addRule_has_lowest_precedence (flag : FeatureFlag.t) (rule : Rule.t) (now : Z)
    (context : EvaluationContext.t) (startTime endTime : Z) :
  valid_context context ->
  evaluate (Some (FeatureFlag.addRule flag rule now)) (Some context) startTime endTime
  = match snd (_evaluateRules (FeatureFlag.rules flag) context),
          Rule.evaluate rule context with
    | None, Normal true =>
      Normal {| EvaluationResult.enabled := true;
                EvaluationResult.matchedRule := Some rule;
                EvaluationResult.fallbackToDefault := false;
                EvaluationResult.evaluationTime := endTime - startTime |}
    | _, _ => evaluate (Some flag) (Some context) startTime endTime
    end.
Proof.
  intros Hv. rewrite !evaluate_valid by assumption. simpl.
  rewrite evaluateRules_app.
  destruct (snd (_evaluateRules (FeatureFlag.rules flag) context)) as [m|]; simpl.
  { now destruct (Rule.evaluate rule context) as [[|]|]. }
  destruct (Rule.evaluate rule context) as [[|]|]; reflexivity.
Qed.

Lemma addRule_has_lowest_precedence_witness :
  evaluate (Some (FeatureFlag.addRule (flag_with "id1" "f1" [rule_company2]) rule_user1 5))
    (Some ctx_user1_company1) 10 12
  = Normal {| EvaluationResult.enabled := true;
              EvaluationResult.matchedRule := Some rule_user1;
              EvaluationResult.fallbackToDefault := false;
              EvaluationResult.evaluationTime := 2 |}.
Proof.
  apply (addRule_has_lowest_precedence (flag_with "id1" "f1" [rule_company2]) rule_user1 5
           ctx_user1_company1 10 12 valid_ctx_user1_company1).
Defined.

(** Dropping rules that are not the matched one leaves the scan with the
    same matched rule. *)
Lemma evaluateRules_filter (keep : Rule.t -> bool) (rules : Datatypes.list Rule.t)
    (context : EvaluationContext.t) :
  (forall rule, snd (_evaluateRules rules context) = Some rule -> keep rule = true) ->
  snd (_evaluateRules (List.filter keep rules) context)
  = snd (_evaluateRules rules context).
Proof.
  induction rules as [|r rules IH]; simpl; [reflexivity|].
  destruct (try_catch (Rule.evaluate r context) _) as [[|]|e] eqn:E; simpl.
  - intros H. rewrite (H r eq_refl). simpl. now rewrite E.
  - intros H.
    assert (IH' : snd (_evaluateRules (List.filter keep rules) context)
                  = snd (_evaluateRules rules context)).
    { apply IH. intros rule Hr. apply H.
      now destruct (_evaluateRules rules context). }
    destruct (keep r); simpl; [rewrite E|];
      destruct (_evaluateRules (List.filter keep rules) context),
               (_evaluateRules rules context); exact IH'.
  - intros H.
    assert (IH' : snd (_evaluateRules (List.filter keep rules) context)
                  = snd (_evaluateRules rules context)).
    { apply IH. intros rule Hr. apply H.
      now destruct (_evaluateRules rules context). }
    destruct (keep r); simpl; [rewrite E|];
      destruct (_evaluateRules (List.filter keep rules) context),
               (_evaluateRules rules context); exact IH'.
Qed.

Lemma List_filter_sublist {A} (keep : A -> bool) (l : Datatypes.list A) :
  sublist (List.filter keep l) l.
Proof.
  induction l as [|a l IH]; simpl; [constructor|].
  destruct (keep a); now constructor.
Qed.

Lemma sublist_List_filter {A} (keep : A -> bool) (kept l : Datatypes.list A) :
  sublist kept l -> Forall (fun a => keep a = true) kept ->
  sublist kept (List.filter keep l).
Proof.
  induction 1 as [|a kept l _ IH|a kept l _ IH]; simpl; intros Hall.
  - constructor.
  - apply Forall_cons in Hall as [-> Hall]. constructor. now apply IH.
  - destruct (keep a); [constructor|]; now apply IH.
Qed.

(** X9. [removeRule(ruleId)] removes every rule with that id and nothing
    else, and keeps the order of the others. The rules left have another id
    and are those of the flag that have another id; they are a subsequence
    of the rules of the flag, and the longest one without that id: every
    subsequence of the old rules without a rule of that id is a subsequence
    of the rules left. If no rule has the id the rules are as before. No
    later evaluation names a rule with that id as matched, and an evaluation
    that did not match a rule with that id has the same result after the
    removal. *)
Theorem removeRule_removes_all (flag : FeatureFlag.t) (ruleId : string) (now : Z) :
  let flag' := FeatureFlag.removeRule flag ruleId now in
  Forall (fun rule => Rule.id rule <> ruleId) (FeatureFlag.rules flag')
  /\ (forall rule, In rule (FeatureFlag.rules flag') <->
                   In rule (FeatureFlag.rules flag) /\ Rule.id rule <> ruleId)
  /\ (Forall (fun rule => Rule.id rule <> ruleId) (FeatureFlag.rules flag) ->
      FeatureFlag.rules flag' = FeatureFlag.rules flag)
  /\ (forall context startTime endTime result rule,
        evaluate (Some flag') (Some context) startTime endTime = Normal result ->
        EvaluationResult.matchedRule result = Some rule ->
        Rule.id rule <> ruleId)
  /\ sublist (FeatureFlag.rules flag') (FeatureFlag.rules flag)
  /\ (forall kept,
        sublist kept (FeatureFlag.rules flag) ->
        Forall (fun rule => Rule.id rule <> ruleId) kept ->
        sublist kept (FeatureFlag.rules flag'))
  /\ (forall context startTime endTime result,
        evaluate (Some flag) (Some context) startTime endTime = Normal result ->
        (forall rule, EvaluationResult.matchedRule result = Some rule ->
                      Rule.id rule <> ruleId) ->
        evaluate (Some flag') (Some context) startTime endTime = Normal result).
Proof.
  simpl.
  assert (Hin : forall rule,
             In rule (List.filter (fun rule => negb (String.eqb (Rule.id rule) ruleId))
                        (FeatureFlag.rules flag))
             <-> In rule (FeatureFlag.rules flag) /\ Rule.id rule <> ruleId).
  { intros rule. rewrite filter_In, negb_true_iff, String.eqb_neq. reflexivity. }
  split; [|split; [exact Hin|split; [|split; [|split; [|split]]]]].
  - apply List.Forall_forall. intros rule H. now apply Hin in H.
  - generalize (FeatureFlag.rules flag). intros rules H.
    induction H as [|rule rules Hr _ IH]; simpl; [reflexivity|].
    apply String.eqb_neq in Hr. rewrite Hr. simpl. now rewrite IH.
  - intros context startTime endTime result rule Hev Hm.
    rewrite evaluate_objects in Hev. injection Hev as <-.
    destruct (truthy (EvaluationContext.userId context)
              && truthy (EvaluationContext.tenantId context)); simpl in *;
      [|discriminate].
    destruct (snd (_evaluateRules _ context)) as [m|] eqn:Hfound; simpl in *;
      [|discriminate].
    injection Hm as ->. apply evaluateRules_found in Hfound as [Hfound _].
    now apply Hin in Hfound.
  - apply List_filter_sublist.
  - intros kept Hsub Hall. apply sublist_List_filter; [assumption|].
    eapply Forall_impl; [exact Hall|]. simpl. intros rule Hr.
    now rewrite negb_true_iff, String.eqb_neq.
  - intros context startTime endTime result Hev Hother.
    rewrite evaluate_objects in Hev |- *. injection Hev as <-. simpl in *.
    destruct (truthy (EvaluationContext.userId context)
              && truthy (EvaluationContext.tenantId context)); [|reflexivity].
    rewrite evaluateRules_filter; [reflexivity|].
    intros rule Hr. rewrite Hr in Hother.
    rewrite negb_true_iff, String.eqb_neq. now apply Hother.
Qed.

(** X10. [setEnabled] changes the outcome only where no rule decides: after
    it the result names the same matched rule and is a fallback in the same
    cases as before; it is enabled when a rule matched, and carries the new
    value when it is a fallback. *)
Theorem setEnabled_sets_the_fallback (flag : FeatureFlag.t) (value : bool) (now : Z)
    (context : EvaluationContext.t) (startTime endTime : Z) :
  exists before after,
    evaluate (Some flag) (Some context) startTime endTime = Normal before
    /\ evaluate (Some (FeatureFlag.setEnabled flag value now)) (Some context)
         startTime endTime = Normal after
    /\ EvaluationResult.matchedRule after = EvaluationResult.matchedRule before
    /\ EvaluationResult.fallbackToDefault after
       = EvaluationResult.fallbackToDefault before
    /\ EvaluationResult.enabled after
       = (if EvaluationResult.fallbackToDefault before then value else true).
Proof.
  rewrite !evaluate_objects. simpl. eexists. eexists.
  split; [reflexivity|]. split; [reflexivity|].
  destruct (truthy (EvaluationContext.userId context)
            && truthy (EvaluationContext.tenantId context)); simpl; [|auto].
  destruct (snd (_evaluateRules (FeatureFlag.rules flag) context)); simpl; auto.
Qed.

Lemma removeRule_removes_all_witness :
  sublist [rule_user1; rule_half]
    (FeatureFlag.rules (FeatureFlag.removeRule flag_three_rules "r1" 5))
  /\ sublist (FeatureFlag.rules (FeatureFlag.removeRule flag_three_rules "r1" 5))
       [rule_company2; rule_user1; rule_half]
  /\ Forall (fun rule => Rule.id rule <> "r1")
       (FeatureFlag.rules (FeatureFlag.removeRule flag_three_rules "r1" 5))
  /\ evaluate (Some (FeatureFlag.removeRule flag_three_rules "r1" 5))
       (Some ctx_user1_company1) 10 12
     = Normal {| EvaluationResult.enabled := true;
                 EvaluationResult.matchedRule := Some rule_user1;
                 EvaluationResult.fallbackToDefault := false;
                 EvaluationResult.evaluationTime := 2 |}.
Proof.
  destruct (removeRule_removes_all flag_three_rules "r1" 5)
    as (Hall & _ & _ & _ & Hsub & Hmax & Hsame).
  split; [|split; [exact Hsub|split; [exact Hall|]]].
  - apply Hmax.
    + apply sublist_cons, sublist_skip, sublist_skip, sublist_nil.
    + repeat constructor; discriminate.
  - apply Hsame; [reflexivity|]. intros rule [= <-]. discriminate.
Defined.

#[local] Arguments Nat.mul : simpl never.

Lemma evaluate_each_objects (flags : Datatypes.list FeatureFlag.t)
    (context : EvaluationContext.t) (clock : nat -> Z) (tick : nat) :
  exists results,
    evaluate_each (map Some flags) (Some context) clock tick = Normal results
    /\ length results = length flags
    /\ forall (i : nat) (flag : FeatureFlag.t),
        flags !! i = Some flag ->
        exists result,
          results !! i = Some result
          /\ evaluate (Some flag) (Some context)
               (clock (tick + 2 * i)%nat) (clock (tick + 2 * i + 1)%nat)
             = Normal result.
Proof.
  revert tick. induction flags as [|flag flags IH]; intros tick; simpl.
  - exists []. repeat split. intros i f H. discriminate.
  - destruct (IH (S (S tick))) as (rs & Hrs & Hlen & Hnth).
    rewrite evaluate_objects. unfold_completion. rewrite Hrs.
    eexists. split; [reflexivity|]. split; [simpl; now rewrite Hlen|].
    intros [|i] f Hf; simpl in Hf.
    + injection Hf as <-. eexists. split; [reflexivity|].
      rewrite evaluate_objects.
      replace (tick + 2 * 0)%nat with tick by lia.
      replace (tick + 1)%nat with (S tick) by lia. reflexivity.
    + destruct (Hnth i f Hf) as (r & Hr & Hev). exists r. split; [exact Hr|].
      replace (tick + 2 * S i)%nat with (S (S tick) + 2 * i)%nat by lia.
      exact Hev.
Qed.

(** X11. [evaluateBatch] on flag objects and a context object returns one
    result per flag, in the order of the flags, and the result at each
    position is what [evaluate] returns for that flag alone, between the
    two clock readings that fall to it: no flag affects another. With a
    [null] context it throws, whatever the flags, the empty list included. *)
Theorem evaluateBatch_per_flag (flags : Datatypes.list FeatureFlag.t)
    (context : EvaluationContext.t) (clock : nat -> Z) :
  (exists results,
      evaluateBatch (map Some flags) (Some context) clock = Normal results
      /\ length results = length flags
      /\ forall (i : nat) (flag : FeatureFlag.t),
          flags !! i = Some flag ->
          exists result,
            results !! i = Some result
            /\ evaluate (Some flag) (Some context)
                 (clock (2 * i + 1)%nat) (clock (2 * i + 2)%nat)
               = Normal result)
  /\ forall anyFlags,
      evaluateBatch anyFlags None clock
      = Throw "TypeError: Cannot read properties of null".
Proof.
  split; [|reflexivity].
  destruct (evaluate_each_objects flags context clock 1) as (rs & Hrs & Hlen & Hnth).
  exists rs. unfold evaluateBatch. unfold_completion.
  split; [exact Hrs|]. split; [exact Hlen|].
  intros i flag Hf. destruct (Hnth i flag Hf) as (r & Hr & Hev).
  exists r. split; [exact Hr|].
  replace (2 * i + 1)%nat with (1 + 2 * i)%nat by lia.
  replace (2 * i + 2)%nat with (1 + 2 * i + 1)%nat by lia. exact Hev.
Qed.

(** X12. The hash of a string is a number from 0 to 2^31, also when the
    32-bit accumulator ends at -2^31, so the bucket of a context is a number
    from 0 to 99; an enabled rule with a percentage from 1 to 99 matches
    exactly the contexts whose bucket is below the percentage, whatever the
    id of the rule. *)
Theorem percentage_rule_is_bucket_test (id : string) (p createdAt : Z)
    (context : EvaluationContext.t) :
  0 < p < 100 ->
  PercentageRule.evaluate (PercentageRule.new id p true createdAt) context
  = (PercentageRule.bucket_of context <? p)
  /\ 0 <= PercentageRule.bucket_of context < 100
  /\ forall str, 0 <= PercentageRule._hash str <= 2^31.
Proof.
  intros Hp. split; [|split; [apply bucket_range | apply hash_nonneg]].
  unfold PercentageRule.evaluate, PercentageRule.new. simpl.
  rewrite Z.min_r, Z.max_r by lia.
  destruct (Z.eqb_spec p 0); [lia|]. destruct (Z.eqb_spec p 100); [lia|].
  reflexivity.
Qed.

Lemma percentage_rule_is_bucket_test_witness :
  PercentageRule.evaluate (PercentageRule.new "r4" 50 true 7) ctx_user1_company1
  = (PercentageRule.bucket_of ctx_user1_company1 <? 50).
Proof.
  apply (percentage_rule_is_bucket_test "r4" 50 7 ctx_user1_company1). lia.
Defined.

(** ** The repository: conflicts, round trips and what is left unchanged *)

Section JsMapMore.
Context {V : Type}.
Implicit Types (m : JsMap.t V) (k : string) (v : V).

Lemma JsMap_delete_absent m k : JsMap.get k m = None -> JsMap.delete k m = m.
Proof.
  induction m as [|[k' v'] m IH]; simpl; [reflexivity|].
  destruct (String.eqb k' k); [discriminate|]. intros H. now rewrite IH.
Qed.

Lemma JsMap_delete_set_eq m k v : JsMap.delete k (JsMap.set k v m) = JsMap.delete k m.
Proof.
  induction m as [|[k' v'] m IH]; simpl.
  - now rewrite String.eqb_refl.
  - destruct (String.eqb k' k) eqn:E; simpl; rewrite E; [reflexivity|].
    now rewrite IH.
Qed.

Lemma JsMap_delete_set_ne m k k' v :
  k <> k' -> JsMap.delete k (JsMap.set k' v m) = JsMap.set k' v (JsMap.delete k m).
Proof.
  intros Hne. induction m as [|[k0 v0] m IH]; simpl.
  - apply not_eq_sym in Hne. apply String.eqb_neq in Hne. now rewrite Hne.
  - destruct (String.eqb_spec k0 k') as [->|H0]; simpl.
    + apply not_eq_sym in Hne. apply String.eqb_neq in Hne. rewrite Hne. simpl.
      now rewrite String.eqb_refl.
    + destruct (String.eqb_spec k0 k) as [->|H1]; [assumption|]. simpl.
      apply String.eqb_neq in H0. now rewrite H0, IH.
Qed.

Lemma JsMap_get_In m k v : JsMap.get k m = Some v -> In (k, v) m.
Proof.
  induction m as [|[k' v'] m IH]; simpl; [discriminate|].
  destruct (String.eqb_spec k' k) as [->|Hne].
  - intros [= ->]. now left.
  - intros H. right. now apply IH.
Qed.

Lemma JsMap_In_get m k v :
  NoDup (JsMap.keys m) -> In (k, v) m -> JsMap.get k m = Some v.
Proof.
  unfold JsMap.keys. induction m as [|[k' v'] m IH]; simpl; [tauto|].
  intros Hnd. apply NoDup_cons in Hnd as [Hnotin Hnd].
  intros [[= -> ->]|Hin].
  - now rewrite String.eqb_refl.
  - destruct (String.eqb_spec k' k) as [->|Hne]; [|now apply IH].
    exfalso. apply Hnotin. apply list_elem_of_In.
    change k with (fst (k, v)). now apply in_map.
Qed.

End JsMapMore.

Lemma with_flags_same (σ : State) : with_flags σ (flags σ) = σ.
Proof. now destruct σ. Qed.

(** X13. [create] succeeds exactly when neither the id nor the name of the
    flag is a key of the [Map], whether that key was stored as an id or as a
    name. If the id is a key it throws "Feature flag with ID ... already
    exists"; if only the name is, "Feature flag with name '...' already
    exists". *)
Theorem create_succeeds_iff (σ : State) (r : ref) (flag : FeatureFlag.t) :
  objects σ !! r = Some flag ->
  ((exists σ', create r σ = Normal (r, σ'))
   <-> JsMap.get (FeatureFlag.id flag) (flags σ) = None
       /\ JsMap.get (FeatureFlag.name flag) (flags σ) = None)
  /\ (forall other, JsMap.get (FeatureFlag.id flag) (flags σ) = Some other ->
        create r σ
        = Throw ("Feature flag with ID " +:+ FeatureFlag.id flag +:+ " already exists"))
  /\ (forall other, JsMap.get (FeatureFlag.id flag) (flags σ) = None ->
        JsMap.get (FeatureFlag.name flag) (flags σ) = Some other ->
        create r σ
        = Throw ("Feature flag with name '" +:+ FeatureFlag.name flag
                 +:+ "' already exists")).
Proof.
  intros Hobj. unfold create, JsMap.has. rewrite Hobj. unfold_completion.
  destruct (JsMap.get (FeatureFlag.id flag) (flags σ)) as [o1|];
    destruct (JsMap.get (FeatureFlag.name flag) (flags σ)) as [o2|];
    (split; [split; [intros [σ' H]; try discriminate H; auto
                    | intros [H1 H2]; try discriminate; eauto]
            | split; [intros other H; try discriminate H; reflexivity
                     | intros other H1 H2; try discriminate; reflexivity]]).
Qed.

Lemma create_succeeds_iff_witness :
  create r0 st_created = Throw "Feature flag with ID id1 already exists".
Proof.
  apply (proj1 (proj2 (create_succeeds_iff st_created r0 (flag_with "id1" "f1" [])
                         eq_refl)) r0).
  reflexivity.
Defined.

(** X14. Deleting by its id a flag that was just created gives back the
    repository as it was before the [create]: the same entries in the same
    order. *)
Theorem delete_undoes_create (σ σ1 : State) (r x : ref) (flag : FeatureFlag.t) :
  objects σ !! r = Some flag ->
  create r σ = Normal (x, σ1) ->
  delete (FeatureFlag.id flag) σ1 = Normal (true, σ).
Proof.
  intros Hobj Hc.
  destruct (create_both_keys _ _ _ _ _ Hobj Hc) as [Hgid _].
  destruct (create_Normal _ _ _ _ _ Hobj Hc) as (_ & Hfid & Hfname & ->).
  apply JsMap_has_false in Hfid, Hfname.
  unfold delete. simpl in *. rewrite Hgid, Hobj. unfold_completion.
  f_equal. f_equal. unfold with_flags. simpl.
  rewrite <- (with_flags_same σ) at 3. unfold with_flags. f_equal.
  destruct (String.eqb_spec (FeatureFlag.id flag) (FeatureFlag.name flag)) as [E|Hne].
  - rewrite <- E in *. rewrite !JsMap_delete_set_eq.
    now rewrite !JsMap_delete_absent by (rewrite ?JsMap_delete_absent; assumption).
  - rewrite (JsMap_delete_set_ne _ _ _ _ Hne).
    rewrite (JsMap_delete_set_eq (flags σ) (FeatureFlag.id flag)).
    rewrite (JsMap_delete_absent _ _ Hfid), JsMap_delete_set_eq.
    now apply JsMap_delete_absent.
Qed.

Lemma delete_undoes_create_witness :
  delete "id1" st_created = Normal (true, st_empty).
Proof.
  apply (delete_undoes_create st_empty st_created r0 r0 (flag_with "id1" "f1" []));
    reflexivity.
Defined.

(** X15. [delete] of a key that is not in the [Map] returns false and
    leaves the repository as it is; after a [delete] that returned true, a
    second [delete] of the same key returns false. *)
Theorem delete_twice (σ : State) (key : string) :
  (JsMap.get key (flags σ) = None -> delete key σ = Normal (false, σ))
  /\ forall σ', delete key σ = Normal (true, σ') -> delete key σ' = Normal (false, σ').
Proof.
  split.
  - intros H. unfold delete. now rewrite H.
  - intros σ' Hd. unfold delete in *.
    destruct (JsMap.get key (flags σ)) as [r|] eqn:Hget; [|discriminate].
    destruct (objects σ !! r) as [flag|]; unfold_completion; [|discriminate].
    injection Hd as <-. simpl.
    now rewrite JsMap_get_delete_None by apply JsMap_get_delete_eq.
Qed.

Lemma delete_twice_witness : delete "id1" st_empty = Normal (false, st_empty).
Proof.
  apply (proj2 (delete_twice st_created "id1") st_empty). reflexivity.
Defined.

(** X16. [update] of a key that is not in the [Map] returns [null] and
    leaves the repository as it is. An [update] to a non-empty new name that
    is a key of the [Map] throws "Feature flag with name '...' already
    exists", whatever that key was stored for: a flag cannot be renamed to
    its own id either. *)
Theorem update_not_found_or_conflict (σ : State) (key : string) (updates : Updates.t)
    (now : Z) :
  (JsMap.get key (flags σ) = None -> update key updates now σ = Normal (None, σ))
  /\ (forall r old newName other,
        JsMap.get key (flags σ) = Some r ->
        objects σ !! r = Some old ->
        Updates.name updates = Some newName ->
        newName <> "" ->
        newName <> FeatureFlag.name old ->
        JsMap.get newName (flags σ) = Some other ->
        update key updates now σ
        = Throw ("Feature flag with name '" +:+ newName +:+ "' already exists")).
Proof.
  split.
  - intros H. unfold update. now rewrite H.
  - intros r old newName other Hget Hobj Hname Hne Hdiff Hother.
    unfold update, JsMap.has. rewrite Hget, Hobj, Hname, Hother. unfold_completion.
    apply String.eqb_neq in Hne, Hdiff. now rewrite Hne, Hdiff.
Qed.

Lemma update_not_found_or_conflict_witness :
  update "id1" (rename_to "id1") 5 st_created
  = Throw "Feature flag with name 'id1' already exists".
Proof.
  apply (proj2 (update_not_found_or_conflict st_created "id1" (rename_to "id1") 5)
           r0 (flag_with "id1" "f1" []) "id1" r0); try reflexivity; discriminate.
Defined.

(** X17. [update] copies an [id] given in [updates] onto the stored object
    and moves no id key. After a successful [update] whose [updates] carry
    an id that is no key of the [Map] and is not the new name, the stored
    object has the new id, [findById] of the new id returns [null], the
    flag is still held under the key of the call unless that key was its old
    name, and none of the entries [count] counts holds the flag. *)
Theorem update_with_id_moves_no_key (σ σ' : State) (key newId : string)
    (updates : Updates.t) (now : Z) (r : ref) (old : FeatureFlag.t)
    (result : option ref) :
  JsMap.get key (flags σ) = Some r ->
  objects σ !! r = Some old ->
  Updates.id updates = Some newId ->
  Updates.name updates <> Some newId ->
  JsMap.get newId (flags σ) = None ->
  update key updates now σ = Normal (result, σ') ->
  result = Some r
  /\ (exists flag', objects σ' !! r = Some flag' /\ FeatureFlag.id flag' = newId)
  /\ findById newId σ' = None
  /\ (key <> FeatureFlag.name old -> findById key σ' = Some r)
  /\ ~ In r (map snd (List.filter (is_id_entry σ') (JsMap.entries (flags σ')))).
Proof.
  intros Hget Hobj Hid Hname Hfree Hu.
  assert (Hflags : flags σ' = flags σ
                   \/ exists newName, newName <> newId
                        /\ flags σ' = JsMap.set newName r
                                        (JsMap.delete (FeatureFlag.name old) (flags σ))).
  { destruct (Updates.name updates) as [newName|] eqn:En.
    - destruct (String.eqb_spec newName "") as [->|Hne].
      + left. eapply update_keeps_keys; eauto.
      + destruct (String.eqb_spec newName (FeatureFlag.name old)) as [->|Hdiff].
        * left. eapply update_keeps_keys; eauto.
        * right. exists newName. split; [congruence|].
          now destruct (update_rename_Normal _ _ _ _ _ _ _ _ _ Hget Hobj En Hne Hdiff Hu)
            as (_ & _ & ->).
    - left. eapply update_keeps_keys; eauto. }
  assert (Hres : result = Some r
                 /\ objects σ' = <[r := set_updatedAt (Object_assign old updates) now]>
                                   (objects σ)).
  { revert Hu. unfold update. rewrite Hget, Hobj. unfold_completion.
    destruct (match Updates.name updates with
              | Some newName => _
              | None => _
              end) as [m|e]; [|discriminate].
    now intros [= <- <-]. }
  destruct Hres as [-> Hobjs].
  assert (Hnew : objects σ' !! r = Some (set_updatedAt (Object_assign old updates) now))
    by (rewrite Hobjs; apply lookup_insert_eq).
  assert (Hnone : JsMap.get newId (flags σ') = None).
  { destruct Hflags as [->|(newName & Hne & ->)]; [assumption|].
    rewrite JsMap_get_set_ne by assumption. now apply JsMap_get_delete_None. }
  split; [reflexivity|]. split; [|split; [|split]].
  - eexists. split; [exact Hnew|]. simpl. now rewrite Hid.
  - exact Hnone.
  - intros Hkey. unfold findById.
    destruct Hflags as [->|(newName & Hne & ->)]; [assumption|].
    destruct (String.eqb_spec newName key) as [->|Hk].
    + apply JsMap_get_set_eq.
    + rewrite JsMap_get_set_ne by assumption.
      rewrite JsMap_get_delete_ne by congruence. assumption.
  - eapply count_skips_flag_without_id_key; [exact Hnew|].
    simpl. now rewrite Hid.
Qed.

Lemma update_with_id_moves_no_key_witness :
  update "id1" (reidentify_to "x") 5 st_created = Normal (Some r0, st_reidentified)
  /\ (exists flag', objects st_reidentified !! r0 = Some flag'
                    /\ FeatureFlag.id flag' = "x")
  /\ findById "x" st_reidentified = None
  /\ findById "id1" st_reidentified = Some r0
  /\ ~ In r0 (map snd (List.filter (is_id_entry st_reidentified)
                         (JsMap.entries (flags st_reidentified)))).
Proof.
  split; [reflexivity|].
  destruct (update_with_id_moves_no_key st_created st_reidentified "id1" "x"
              (reidentify_to "x") 5 r0 (flag_with "id1" "f1" []) (Some r0))
    as (_ & Hflag & Hnone & Hkey & Hcount);
    try reflexivity; try discriminate.
  split; [exact Hflag|]. split; [exact Hnone|]. split; [|exact Hcount].
  apply Hkey. discriminate.
Defined.

(** ** The repository: what is counted and what is listed *)

Section ListFacts.
Context {A B : Type}.

Lemma partition_length (a b : A -> bool) (l : Datatypes.list A) :
  (forall e, In e l -> a e = negb (b e)) ->
  length l = (length (List.filter a l) + length (List.filter b l))%nat.
Proof.
  induction l as [|e l IH]; simpl; [reflexivity|].
  intros H. rewrite (H e) by now left.
  rewrite IH by (intros e' He'; apply H; now right).
  destruct (b e); simpl; lia.
Qed.

Lemma filter_filter (p q : A -> bool) (l : Datatypes.list A) :
  List.filter q (List.filter p l) = List.filter (fun e => p e && q e) l.
Proof.
  induction l as [|e l IH]; simpl; [reflexivity|].
  destruct (p e); simpl; [destruct (q e)|]; now rewrite IH.
Qed.

Lemma filter_map_comm (f : A -> B) (p : B -> bool) (l : Datatypes.list A) :
  List.filter p (map f l) = map f (List.filter (fun e => p (f e)) l).
Proof.
  induction l as [|e l IH]; simpl; [reflexivity|].
  destruct (p (f e)); simpl; now rewrite IH.
Qed.

Lemma NoDup_List_filter (p : A -> bool) (l : Datatypes.list A) :
  NoDup l -> NoDup (List.filter p l).
Proof.
  induction 1 as [|e l Hnotin _ IH]; simpl; [constructor|].
  destruct (p e); [|assumption]. constructor; [|assumption].
  intros Hin. apply Hnotin. apply list_elem_of_In.
  apply list_elem_of_In in Hin. now apply filter_In in Hin.
Qed.

Lemma NoDup_keys_filter (p : A * B -> bool) (l : Datatypes.list (A * B)) :
  NoDup (map fst l) -> NoDup (map fst (List.filter p l)).
Proof.
  induction l as [|e l IH]; simpl; [auto|].
  intros Hnd. apply NoDup_cons in Hnd as [Hnotin Hnd].
  destruct (p e); simpl; [|now apply IH].
  apply NoDup_cons. split; [|now apply IH].
  intros Hin. apply Hnotin. apply list_elem_of_In.
  apply list_elem_of_In in Hin. apply in_map_iff in Hin as (e' & He' & Hin).
  apply filter_In in Hin as [Hin _]. apply in_map_iff. eauto.
Qed.

(** Values are pairwise distinct when keys are and the value fixes the key. *)
Lemma NoDup_values (l : Datatypes.list (A * B)) :
  NoDup (map fst l) ->
  (forall e1 e2, In e1 l -> In e2 l -> snd e1 = snd e2 -> fst e1 = fst e2) ->
  NoDup (map snd l).
Proof.
  induction l as [|e l IH]; simpl; [constructor|].
  intros Hnd Hfix. apply NoDup_cons in Hnd as [Hnotin Hnd].
  apply NoDup_cons. split.
  - intros Hin. apply Hnotin. apply list_elem_of_In.
    apply list_elem_of_In in Hin. apply in_map_iff in Hin as (e' & He' & Hin).
    apply in_map_iff. exists e'. split; [|assumption].
    symmetry. apply Hfix; auto.
  - apply IH; [assumption|]. intros e1 e2 H1 H2. apply Hfix; auto.
Qed.

End ListFacts.

(** The search of [list] and [count] is one filter on the flag objects. *)
Lemma apply_search_filter (σ : State) (search : option string) :
  exists q, forall l, apply_search σ search l = List.filter q l.
Proof.
  unfold apply_search. destruct (truthy search).
  - eexists. reflexivity.
  - exists (fun _ => true). intros l. induction l as [|e l IH]; simpl; congruence.
Qed.

Lemma is_id_entry_split (σ : State) (entry : string * ref) :
  is_id_entry σ entry = is_flag σ entry.2 && id_entry σ entry.
Proof. reflexivity. Qed.

Lemma id_entry_true (σ : State) (key : string) (r : ref) :
  id_entry σ (key, r) = true ->
  exists flag, objects σ !! r = Some flag /\ FeatureFlag.id flag = key.
Proof.
  unfold id_entry, flag_has. simpl. destruct (objects σ !! r) as [flag|]; [|discriminate].
  intros H. apply String.eqb_eq in H. eauto.
Qed.

Lemma name_entry_true (σ : State) (key : string) (r : ref) :
  name_entry σ (key, r) = true ->
  exists flag, objects σ !! r = Some flag /\ FeatureFlag.name flag = key.
Proof.
  unfold name_entry, flag_has. simpl. destruct (objects σ !! r) as [flag|]; [|discriminate].
  intros H. apply String.eqb_eq in H. eauto.
Qed.

(** The keys of the [Map] stay pairwise distinct, whatever is called. *)
Lemma step_NoDup_keys (σ σ' : State) :
  NoDup (JsMap.keys (flags σ)) -> step σ σ' -> NoDup (JsMap.keys (flags σ')).
Proof.
  intros Hnd Hstep. destruct Hstep as [σ r flag _|σ σ' r x Hc|σ σ' k u now res Hu|σ σ' k d Hd].
  - exact Hnd.
  - unfold create in Hc. destruct (objects σ !! r) as [flag|]; unfold_completion;
      [|discriminate].
    destruct (JsMap.has (FeatureFlag.id flag) (flags σ)); [discriminate|].
    destruct (JsMap.has (FeatureFlag.name flag) (flags σ)); [discriminate|].
    injection Hc as <- <-. simpl. now apply JsMap_set_NoDup, JsMap_set_NoDup.
  - unfold update in Hu. destruct (JsMap.get k (flags σ)) as [r|];
      [|now injection Hu as <- <-].
    destruct (objects σ !! r) as [old|]; unfold_completion; [|discriminate].
    destruct (Updates.name u) as [n|]; [|now injection Hu as <- <-].
    destruct (negb (String.eqb n "") && negb (String.eqb n (FeatureFlag.name old)));
      [|now injection Hu as <- <-].
    destruct (JsMap.has n (flags σ)); [discriminate|].
    injection Hu as <- <-. simpl. now apply JsMap_set_NoDup, JsMap_delete_NoDup.
  - unfold delete in Hd. destruct (JsMap.get k (flags σ)) as [r|];
      [|now injection Hd as <- <-].
    destruct (objects σ !! r) as [flag|]; unfold_completion; [|discriminate].
    injection Hd as <- <-. simpl. now apply JsMap_delete_NoDup, JsMap_delete_NoDup.
Qed.

Lemma reachable_NoDup_keys (σ : State) : reachable σ -> NoDup (JsMap.keys (flags σ)).
Proof.
  induction 1 as [|σ σ' _ IH Hstep]; [constructor|].
  eapply step_NoDup_keys; eassumption.
Qed.

Lemma counted_NoDup (σ : State) (p : string * ref -> bool) :
  NoDup (JsMap.keys (flags σ)) ->
  NoDup (map snd (List.filter (fun e => id_entry σ e && p e) (flags σ))).
Proof.
  intros Hnd. apply NoDup_values.
  - now apply NoDup_keys_filter.
  - intros [k1 r1] [k2 r2] H1 H2. simpl. intros <-.
    apply filter_In in H1 as [_ H1], H2 as [_ H2].
    apply andb_true_iff in H1 as [H1 _], H2 as [H2 _].
    apply id_entry_true in H1 as (f1 & Ho1 & <-), H2 as (f2 & Ho2 & <-).
    congruence.
Qed.

(** X18. In every state the repository can reach, by any calls whatever,
    the keys of the [Map] are pairwise distinct, and [count] is the length
    of a list without duplicates of stored flag objects, each held under its
    own id: [count] never counts a flag twice. *)
Theorem count_never_counts_twice (σ : State) (options : ListOptions.t) :
  reachable σ ->
  NoDup (JsMap.keys (flags σ))
  /\ exists counted : Datatypes.list ref,
      count options σ = length counted
      /\ NoDup counted
      /\ forall r, In r counted ->
           exists flag, objects σ !! r = Some flag
                        /\ JsMap.get (FeatureFlag.id flag) (flags σ) = Some r.
Proof.
  intros Hreach. pose proof (reachable_NoDup_keys σ Hreach) as Hnd.
  split; [exact Hnd|].
  destruct (apply_search_filter σ (ListOptions.search options)) as [q Hq].
  eexists. split; [reflexivity|]. rewrite Hq. unfold JsMap.entries. split.
  - apply NoDup_List_filter.
    erewrite filter_ext; [apply (counted_NoDup σ (fun e => is_flag σ e.2) Hnd)|].
    intros e. rewrite is_id_entry_split. apply andb_comm.
  - intros r Hin. apply filter_In in Hin as [Hin _].
    apply in_map_iff in Hin as ([k r'] & Hr & Hin). simpl in Hr. subst r'.
    apply filter_In in Hin as [Hin Hentry].
    rewrite is_id_entry_split in Hentry. apply andb_true_iff in Hentry as [_ Hentry].
    apply id_entry_true in Hentry as (flag & Hobj & <-).
    exists flag. split; [assumption|]. now apply JsMap_In_get.
Qed.

Lemma count_never_counts_twice_witness :
  JsMap.entries (flags st_renamed) = [("id1", r0); ("f2", r0)]
  /\ NoDup (JsMap.keys (flags st_renamed))
  /\ exists counted : Datatypes.list ref,
      count ListOptions.empty st_renamed = length counted
      /\ NoDup counted
      /\ forall r, In r counted ->
           exists flag, objects st_renamed !! r = Some flag
                        /\ JsMap.get (FeatureFlag.id flag) (flags st_renamed) = Some r.
Proof.
  split; [reflexivity|].
  apply (count_never_counts_twice st_renamed ListOptions.empty
           (regular_reachable st_renamed regular_st_renamed)).
Defined.

Lemma list_unpaginated (σ : State) (search : option string) :
  list (unpaginated σ search) σ
  = apply_search σ search (List.filter (is_flag σ) (JsMap.values (flags σ))).
Proof.
  unfold list, unpaginated. simpl. apply Array_slice_all.
  destruct (apply_search_filter σ search) as [q ->].
  etransitivity; [apply filter_length_le|].
  etransitivity; [apply filter_length_le|].
  unfold JsMap.values. now rewrite length_map.
Qed.

(** Under the dual-key invariant an entry is an id entry or a name entry,
    never both. *)
Lemma entry_kind (σ : State) (entry : string * ref) :
  dual_key σ -> NoDup (JsMap.keys (flags σ)) -> In entry (flags σ) ->
  id_entry σ entry = negb (name_entry σ entry).
Proof.
  intros Hinv Hnd Hin. destruct entry as [k r].
  apply JsMap_In_get in Hin; [|assumption].
  destruct (Hinv k r Hin) as (f & Hobj & Hkey & _ & _ & Hne).
  unfold id_entry, name_entry, flag_has. simpl. rewrite Hobj.
  destruct Hkey as [-> | ->].
  - rewrite String.eqb_refl. apply not_eq_sym, String.eqb_neq in Hne. now rewrite Hne.
  - rewrite String.eqb_refl. apply String.eqb_neq in Hne. now rewrite Hne.
Qed.

(** Under the dual-key invariant the flags behind the id entries are the
    flags behind the name entries. *)
Lemma id_entries_name_entries (σ : State) (p : ref -> bool) :
  dual_key σ -> NoDup (JsMap.keys (flags σ)) ->
  length (List.filter (fun e => name_entry σ e && p e.2) (flags σ))
  = length (List.filter (fun e => id_entry σ e && p e.2) (flags σ)).
Proof.
  intros Hinv Hnd.
  rewrite <- (length_map snd (List.filter (fun e => name_entry σ e && p e.2) _)).
  rewrite <- (length_map snd (List.filter (fun e => id_entry σ e && p e.2) _)).
  apply Permutation_length, NoDup_Permutation.
  - apply NoDup_values; [now apply NoDup_keys_filter|].
    intros [k1 r1] [k2 r2] H1 H2. simpl. intros <-.
    apply filter_In in H1 as [_ H1], H2 as [_ H2].
    apply andb_true_iff in H1 as [H1 _], H2 as [H2 _].
    apply name_entry_true in H1 as (f1 & Ho1 & <-), H2 as (f2 & Ho2 & <-).
    congruence.
  - now apply (counted_NoDup σ (fun e => p e.2)).
  - intros r. rewrite !list_elem_of_In, !in_map_iff. split.
    + intros ([k r'] & Hr & Hin). simpl in Hr. subst r'.
      apply filter_In in Hin as [Hin Hp]. apply andb_true_iff in Hp as [_ Hp].
      apply JsMap_In_get in Hin; [|assumption].
      destruct (Hinv k r Hin) as (f & Hobj & _ & Hgid & _ & _).
      exists (FeatureFlag.id f, r). split; [reflexivity|].
      apply filter_In. split; [now apply JsMap_get_In|].
      unfold id_entry, flag_has. simpl in *. rewrite Hobj, String.eqb_refl. exact Hp.
    + intros ([k r'] & Hr & Hin). simpl in Hr. subst r'.
      apply filter_In in Hin as [Hin Hp]. apply andb_true_iff in Hp as [_ Hp].
      apply JsMap_In_get in Hin; [|assumption].
      destruct (Hinv k r Hin) as (f & Hobj & _ & _ & Hgname & _).
      exists (FeatureFlag.name f, r). split; [reflexivity|].
      apply filter_In. split; [now apply JsMap_get_In|].
      unfold name_entry, flag_has. simpl in *. rewrite Hobj, String.eqb_refl. exact Hp.
Qed.

Lemma listing_twice_counted (σ : State) (search : option string) :
  dual_key σ -> NoDup (JsMap.keys (flags σ)) ->
  length (apply_search σ search (List.filter (is_flag σ) (JsMap.values (flags σ))))
  = (2 * count (searching search) σ)%nat.
Proof.
  intros Hinv Hnd. unfold count, JsMap.values, JsMap.entries. simpl.
  destruct (apply_search_filter σ search) as [q Hq]. rewrite !Hq.
  rewrite !filter_map_comm, !length_map, !filter_filter.
  set (p := fun r => is_flag σ r && q r).
  rewrite (filter_ext _ (fun e => p e.2)) by reflexivity.
  rewrite (filter_ext (fun e => is_id_entry σ e && q e.2)
             (fun e => id_entry σ e && p e.2)).
  2:{ intros e. rewrite is_id_entry_split. unfold p.
      destruct (is_flag σ e.2), (id_entry σ e), (q e.2); reflexivity. }
  rewrite (partition_length (id_entry σ) (name_entry σ)
             (List.filter (fun e => p e.2) (flags σ))).
  2:{ intros e He. apply filter_In in He as [He _]. now apply entry_kind. }
  rewrite !filter_filter.
  rewrite (filter_ext (fun e => p e.2 && id_entry σ e) (fun e => id_entry σ e && p e.2))
    by (intros e; apply andb_comm).
  rewrite (filter_ext (fun e => p e.2 && name_entry σ e)
             (fun e => name_entry σ e && p e.2)) by (intros e; apply andb_comm).
  rewrite id_entries_name_entries by assumption. lia.
Qed.

Lemma regular_listing_length (σ : State) (search : option string) :
  regular σ ->
  length (list (unpaginated σ search) σ) = (2 * count (searching search) σ)%nat.
Proof.
  intros Hreg. rewrite list_unpaginated.
  apply listing_twice_counted; [now apply regular_dual_key|].
  now apply reachable_NoDup_keys, regular_reachable.
Qed.

(** X19. In every state of regular use (flags created with an id different
    from their name, updates that carry no id and whose new name, if any, is
    not empty, deletes by id) [list] returns, over all its pages,
    exactly twice as many elements as [count] reports for the same search,
    and [getStats] reports twice as many flags as [count()]: every flag that
    is counted once is listed under both of its entries. *)
Theorem regular_listing_is_twice_count (σ : State) (search : option string) :
  regular σ ->
  length (list (unpaginated σ search) σ) = (2 * count (searching search) σ)%nat
  /\ totalFlags (getStats σ) = (2 * count ListOptions.empty σ)%nat.
Proof.
  intros Hreg.
  pose proof (regular_dual_key σ Hreg) as Hinv.
  pose proof (reachable_NoDup_keys σ (regular_reachable σ Hreg)) as Hnd.
  split.
  - rewrite list_unpaginated. now apply listing_twice_counted.
  - simpl. apply (listing_twice_counted σ None Hinv Hnd).
Qed.

Lemma regular_listing_is_twice_count_witness :
  length (list (unpaginated st_renamed None) st_renamed)
  = (2 * count (searching None) st_renamed)%nat.
Proof.
  apply (regular_listing_is_twice_count st_renamed None regular_st_renamed).
Defined.

(** ** The repository: pages, search, statistics and [clear] *)

Lemma Array_slice_nonneg {A} (l : Datatypes.list A) (offset limit : Z) :
  0 <= offset -> 0 <= limit ->
  Array_slice l offset (offset + limit)
  = take (Z.to_nat limit) (drop (Z.to_nat offset) l).
Proof.
  intros Ho Hl. unfold Array_slice.
  destruct (Z.ltb_spec offset 0) as [?|_]; [lia|].
  destruct (Z.ltb_spec (offset + limit) 0) as [?|_]; [lia|].
  destruct (Z.le_gt_cases (Z.of_nat (length l)) offset) as [Hout|Hin].
  - rewrite !Z.min_r by lia. rewrite Z.sub_diag, Nat2Z.id. simpl.
    rewrite !drop_ge by lia. now rewrite !take_nil.
  - rewrite (Z.min_l offset) by lia.
    destruct (Z.le_gt_cases (offset + limit) (Z.of_nat (length l))) as [Hfit|Hover].
    + rewrite Z.min_l by lia. f_equal. lia.
    + rewrite Z.min_r by lia.
      rewrite !take_ge; [reflexivity | |]; rewrite length_drop; lia.
Qed.

Lemma take_take_drop {A} (l : Datatypes.list A) (a b : nat) :
  take a l ++ take b (drop a l) = take (a + b) l.
Proof.
  revert l. induction a as [|a IH]; intros l; simpl; [reflexivity|].
  destruct l as [|x l]; simpl; [now destruct b|]. now rewrite IH.
Qed.

Lemma list_page (σ : State) (search : option string) (offset limit : Z) :
  0 <= offset -> 0 <= limit ->
  list (page offset limit search) σ
  = take (Z.to_nat limit) (drop (Z.to_nat offset) (list (unpaginated σ search) σ)).
Proof.
  intros Ho Hl. rewrite list_unpaginated. unfold list, page. simpl.
  now apply Array_slice_nonneg.
Qed.

(** X20. For an offset and a limit that are not negative, a page of [list]
    is the segment of the whole listing that starts at the offset and has
    at most [limit] elements; so a page is never longer than its limit, and
    a page followed by the next page is the page of both limits together. *)
Theorem list_pages_compose (σ : State) (search : option string) (offset a b : Z) :
  0 <= offset -> 0 <= a -> 0 <= b ->
  list (page offset a search) σ
  = take (Z.to_nat a) (drop (Z.to_nat offset) (list (unpaginated σ search) σ))
  /\ Z.of_nat (length (list (page offset a search) σ)) <= a
  /\ list (page offset a search) σ ++ list (page (offset + a) b search) σ
     = list (page offset (a + b) search) σ.
Proof.
  intros Ho Ha Hb. rewrite !list_page by lia. split; [reflexivity|]. split.
  - rewrite length_take. lia.
  - rewrite Z2Nat.inj_add by lia. rewrite <- drop_drop.
    rewrite (Z2Nat.inj_add a b) by lia. apply take_take_drop.
Qed.

Lemma list_pages_compose_witness :
  list (page 0 1 None) st_created ++ list (page (0 + 1) 1 None) st_created
  = list (page 0 (1 + 1) None) st_created.
Proof.
  apply (list_pages_compose st_created None 0 1 1); lia.
Defined.

Lemma Array_slice_In {A} (l : Datatypes.list A) (start end_ : Z) (x : A) :
  In x (Array_slice l start end_) -> In x l.
Proof.
  unfold Array_slice. intros H. apply list_elem_of_In in H.
  apply list_elem_of_In. eapply subseteq_drop, subseteq_take. exact H.
Qed.

(** X21. An empty search term is no search, for [list] and for [count].
    A search only narrows, and keeps the order: the whole listing for a term
    is a subsequence of the whole listing without a term, every flag on a
    page of a search is on the whole listing without a term, and [count]
    for a term is at most [count] without one. *)
Theorem search_only_narrows (σ : State) (limit offset : option Z)
    (term : option string) :
  let options search :=
    {| ListOptions.limit := limit; ListOptions.offset := offset;
       ListOptions.search := search |} in
  list (options (Some "")) σ = list (options None) σ
  /\ count (options (Some "")) σ = count (options None) σ
  /\ sublist (list (unpaginated σ term) σ) (list (unpaginated σ None) σ)
  /\ (forall r, In r (list (options term) σ) -> In r (list (unpaginated σ None) σ))
  /\ (count (options term) σ <= count (options None) σ)%nat.
Proof.
  simpl. destruct (apply_search_filter σ term) as [q Hq].
  split; [reflexivity|]. split; [reflexivity|]. split; [|split].
  - rewrite !list_unpaginated, Hq. apply List_filter_sublist.
  - intros r Hin. rewrite list_unpaginated. unfold list in Hin. simpl in Hin.
    apply Array_slice_In in Hin. rewrite Hq in Hin.
    now apply filter_In in Hin as [Hin _].
  - unfold count. simpl. rewrite Hq. apply filter_length_le.
Qed.

(** X22. After [clear] no key is found and nothing is counted or listed,
    and every flag object can be created again, whatever was stored. *)
Theorem clear_empties (σ : State) (options : ListOptions.t) :
  (forall key, findById key (clear σ) = None /\ exists_ key (clear σ) = false)
  /\ count options (clear σ) = 0%nat
  /\ list options (clear σ) = []
  /\ totalFlags (getStats (clear σ)) = 0%nat
  /\ forall r flag, objects σ !! r = Some flag ->
       exists σ', create r (clear σ) = Normal (r, σ').
Proof.
  split; [intros key; split; reflexivity|].
  split; [unfold count, apply_search; simpl; now destruct (truthy _)|].
  split.
  { unfold list, apply_search. simpl.
    assert (H : forall a b, @Array_slice ref [] a b = []).
    { intros a b. unfold Array_slice. simpl. now rewrite drop_nil, take_nil. }
    destruct (truthy _); apply H. }
  split; [reflexivity|].
  intros r flag Hobj. unfold create. simpl. rewrite Hobj. unfold_completion. eauto.
Qed.

Lemma clear_empties_witness :
  exists σ', create r0 (clear st_created) = Normal (r0, σ').
Proof.
  apply (proj2 (proj2 (proj2 (proj2 (clear_empties st_created ListOptions.empty))))
           r0 (flag_with "id1" "f1" [])).
  reflexivity.
Defined.

Lemma fold_left_rules_ge (σ : State) (l : Datatypes.list ref) (acc : nat) :
  (acc + length (List.filter
                   (flag_has σ (fun flag => (0 <? length (FeatureFlag.rules flag))%nat)) l)
   <= fold_left (fun sum r => (sum + rule_count σ r)%nat) l acc)%nat.
Proof.
  revert acc. induction l as [|r l IH]; intros acc; simpl; [lia|].
  specialize (IH (acc + rule_count σ r)%nat).
  unfold flag_has, rule_count in *. destruct (objects σ !! r) as [flag|]; simpl in *.
  - destruct (Nat.ltb_spec 0 (length (FeatureFlag.rules flag))); simpl in *; lia.
  - lia.
Qed.

(** X23. In the statistics every entry that is listed is counted as enabled
    or as disabled and never as both, so the two numbers add up to the
    total, which is the length of the whole listing; the flags with rules
    are at most the total and at most the number of rules. *)
Theorem getStats_adds_up (σ : State) :
  totalFlags (getStats σ)
  = (enabledFlags (getStats σ) + disabledFlags (getStats σ))%nat
  /\ totalFlags (getStats σ) = length (list (unpaginated σ None) σ)
  /\ (flagsWithRules (getStats σ) <= totalFlags (getStats σ))%nat
  /\ (flagsWithRules (getStats σ) <= totalRules (getStats σ))%nat.
Proof.
  simpl. split; [|split; [|split]].
  - apply partition_length. intros r Hin. apply filter_In in Hin as [_ Hflag].
    unfold is_flag in Hflag. unfold flag_has.
    destruct (objects σ !! r) as [flag|]; [|discriminate].
    now destruct (FeatureFlag.enabled flag).
  - now rewrite list_unpaginated.
  - apply filter_length_le.
  - apply (fold_left_rules_ge σ _ 0%nat).
Qed.

(** ** The controller *)

Import FeatureFlagController.

Lemma toJSON_each_listed (σ : State) (refs : Datatypes.list ref) :
  Forall (fun r => is_flag σ r = true) refs ->
  exists data, toJSON_each σ refs = Normal data /\ length data = length refs.
Proof.
  induction 1 as [|r refs Hr _ (data & Hdata & Hlen)]; simpl.
  - exists []. auto.
  - unfold toJSON_of. simpl. unfold is_flag in Hr.
    destruct (objects σ !! r) as [flag|]; [|discriminate].
    unfold_completion. rewrite Hdata. eexists. split; [reflexivity|].
    simpl. now rewrite Hlen.
Qed.

Lemma list_is_flag (σ : State) (query : ListOptions.t) :
  Forall (fun r => is_flag σ r = true) (list query σ).
Proof.
  apply List.Forall_forall. intros r Hin. unfold list in Hin.
  apply Array_slice_In in Hin.
  destruct (apply_search_filter σ (ListOptions.search query)) as [q Hq].
  rewrite Hq in Hin. apply filter_In in Hin as [Hin _].
  now apply filter_In in Hin as [_ Hin].
Qed.

Lemma String_includes_app_r (a b sub : string) :
  String_includes b sub = true -> String_includes (a +:+ b) sub = true.
Proof.
  intros H. induction a as [|c a IH]; [exact H|].
  change (String c a +:+ b) with (String c (a +:+ b)).
  cbn [String_includes]. rewrite IH. apply orb_true_r.
Qed.

(** X24. For an id that is not a key of the [Map], the handlers do not
    agree: update, delete and evaluate answer 404 "Not Found", get answers
    500 "Internal Server Error". None of them changes the repository. *)
Theorem unknown_id_answers (σ : State) (id : string) (timestamp : Z) (path : string)
    (updates : Updates.t) (context : EvaluationContext.t) (now startTime endTime : Z) :
  JsMap.get id (flags σ) = None ->
  getFeatureFlag id timestamp path σ = unexpected timestamp path
  /\ updateFeatureFlag id updates now timestamp path σ = (not_found id timestamp path, σ)
  /\ deleteFeatureFlag id timestamp path σ = (not_found id timestamp path, σ)
  /\ evaluateFeatureFlag id context startTime endTime timestamp path σ
     = not_found id timestamp path.
Proof.
  intros H.
  unfold getFeatureFlag, updateFeatureFlag, deleteFeatureFlag, evaluateFeatureFlag,
    toJSON_of, findById, update, delete.
  rewrite H. repeat split; reflexivity.
Qed.

Lemma unknown_id_answers_witness :
  status (getFeatureFlag "nope" 9 "/nope" st_created) = 500
  /\ status (deleteFeatureFlag "nope" 9 "/nope" st_created).1 = 404.
Proof.
  destruct (unknown_id_answers st_created "nope" 9 "/nope" (rename_to "x")
              ctx_user1_company1 5 10 12 eq_refl) as (Hget & _ & Hdel & _).
  rewrite Hget, Hdel. split; reflexivity.
Defined.

(** X25. A name that is already a key is answered differently by the two
    handlers that can meet it: create answers 400 "Bad Request", update
    answers 409 "Conflict", both with the message of the repository and
    with the entries of the [Map] as they were. *)
Theorem name_conflict_answers (σ : State) (timestamp : Z) (path : string) :
  (forall reqBody r uuid createdNow updatedNow fresh featureFlag other,
      objects σ !! r = None ->
      FeatureFlag.new reqBody uuid createdNow updatedNow fresh = Normal featureFlag ->
      JsMap.get (FeatureFlag.id featureFlag) (flags σ) = None ->
      JsMap.get (FeatureFlag.name featureFlag) (flags σ) = Some other ->
      exists σ',
        createFeatureFlag reqBody r uuid createdNow updatedNow fresh timestamp path σ
        = ({| status := 400;
              body := ErrorBody "Bad Request"
                        ("Feature flag with name '" +:+ FeatureFlag.name featureFlag
                         +:+ "' already exists") timestamp path |}, σ')
        /\ flags σ' = flags σ)
  /\ (forall id reqBody now r old newName other,
      JsMap.get id (flags σ) = Some r ->
      objects σ !! r = Some old ->
      Updates.name reqBody = Some newName ->
      newName <> "" ->
      newName <> FeatureFlag.name old ->
      JsMap.get newName (flags σ) = Some other ->
      updateFeatureFlag id reqBody now timestamp path σ
      = ({| status := 409;
            body := ErrorBody "Conflict"
                      ("Feature flag with name '" +:+ newName +:+ "' already exists")
                      timestamp path |}, σ)).
Proof.
  split.
  - intros reqBody r uuid createdNow updatedNow fresh featureFlag other _ Hnew Hid Hname.
    unfold createFeatureFlag. rewrite Hnew.
    unfold create, JsMap.has. simpl. rewrite lookup_insert_eq. unfold_completion.
    rewrite Hid, Hname. eauto.
  - intros id reqBody now r old newName other Hget Hobj Hname Hne Hdiff Hother.
    assert (Hu : update id reqBody now σ
                 = Throw ("Feature flag with name '" +:+ newName
                          +:+ "' already exists")).
    { unfold update, JsMap.has. rewrite Hget, Hobj, Hname, Hother. unfold_completion.
      apply String.eqb_neq in Hne, Hdiff. now rewrite Hne, Hdiff. }
    assert (Hinc : String_includes
                     ("Feature flag with name '" +:+ newName +:+ "' already exists")
                     "already exists" = true).
    { apply String_includes_app_r, String_includes_app_r. reflexivity. }
    unfold updateFeatureFlag. rewrite Hu, Hinc. reflexivity.
Qed.

Lemma name_conflict_answers_witness :
  status (updateFeatureFlag "id1" (rename_to "id1") 5 9 "/id1" st_created).1 = 409
  /\ status (createFeatureFlag (FeatureFlag.toJSON (flag_with "id2" "f1" [])) 1%nat
               "fresh" 98 99 no_fresh 9 "/" st_created).1 = 400.
Proof.
  destruct (name_conflict_answers st_created 9 "/") as [Hcreate Hupdate]. split.
  - rewrite (proj2 (name_conflict_answers st_created 9 "/id1") "id1" (rename_to "id1") 5
               r0 (flag_with "id1" "f1" []) "id1" r0);
      try reflexivity; discriminate.
  - destruct (Hcreate (FeatureFlag.toJSON (flag_with "id2" "f1" [])) 1%nat "fresh" 98 99
                no_fresh (flag_with "id2" "f1" []) r0) as (σ' & -> & _); reflexivity.
Defined.

(** X26. The create handler answers 201 or 400, whatever it is given; it
    answers 201 exactly when the constructor accepts the body and neither
    the id nor the name of the new flag is a key of the [Map]. After a 201
    the flag is stored under both, and getting it by its id answers 200
    with the body the create handler answered with. *)
Theorem create_answers (σ σ' : State) (reqBody : FlagData.t) (r : ref) (uuid : string)
    (createdNow updatedNow : Z) (fresh : nat -> string * Z) (timestamp : Z)
    (path : string) (response : Response) :
  objects σ !! r = None ->
  createFeatureFlag reqBody r uuid createdNow updatedNow fresh timestamp path σ
  = (response, σ') ->
  (status response = 201 \/ status response = 400)
  /\ (status response = 201 <->
      exists featureFlag,
        FeatureFlag.new reqBody uuid createdNow updatedNow fresh = Normal featureFlag
        /\ JsMap.get (FeatureFlag.id featureFlag) (flags σ) = None
        /\ JsMap.get (FeatureFlag.name featureFlag) (flags σ) = None)
  /\ (status response = 201 ->
      exists featureFlag,
        FeatureFlag.new reqBody uuid createdNow updatedNow fresh = Normal featureFlag
        /\ body response = FlagBody (FeatureFlag.toJSON featureFlag) timestamp
        /\ findById (FeatureFlag.id featureFlag) σ' = Some r
        /\ findByName (FeatureFlag.name featureFlag) σ' = Some r
        /\ forall timestamp' path',
            getFeatureFlag (FeatureFlag.id featureFlag) timestamp' path' σ'
            = {| status := 200;
                 body := FlagBody (FeatureFlag.toJSON featureFlag) timestamp' |}).
Proof.
  intros Hfresh. unfold createFeatureFlag.
  destruct (FeatureFlag.new reqBody uuid createdNow updatedNow fresh)
    as [featureFlag|e] eqn:Hnew.
  2:{ intros [= <- <-]. simpl. split; [now right|]. split; [split|]; try discriminate.
      intros (f & Hf & _). discriminate. }
  set (σ1 := {| objects := <[r := featureFlag]> (objects σ); flags := flags σ |}).
  assert (Hobj : objects σ1 !! r = Some featureFlag) by apply lookup_insert_eq.
  destruct (create r σ1) as [[created σ2]|e] eqn:Hc.
  2:{ intros [= <- <-]. simpl. split; [now right|]. split; [split|]; try discriminate.
      intros (f & [= <-] & Hid & Hname). exfalso.
      unfold create, JsMap.has in Hc. rewrite Hobj in Hc. unfold_completion.
      now rewrite Hid, Hname in Hc. }
  destruct (create_Normal _ _ _ _ _ Hobj Hc) as (-> & Hfid & Hfname & Hσ2).
  destruct (create_both_keys _ _ _ _ _ Hobj Hc) as [Hgid Hgname].
  assert (Hobj2 : objects σ2 !! r = Some featureFlag) by now rewrite Hσ2.
  unfold toJSON_of. simpl. rewrite Hobj2. unfold_completion.
  intros [= <- <-]. simpl. split; [now left|]. split; [split|].
  - intros _. exists featureFlag. apply JsMap_has_false in Hfid, Hfname. auto.
  - reflexivity.
  - intros _. exists featureFlag. repeat split; try assumption.
    intros timestamp' path'. unfold getFeatureFlag, toJSON_of, findById.
    rewrite Hgid. simpl. now rewrite Hobj2.
Qed.

Lemma create_answers_witness :
  status (createFeatureFlag (FeatureFlag.toJSON (flag_with "id1" "f1" [])) r0
            "fresh" 98 99 no_fresh 9 "/" (FeatureFlagRepository.new ∅)).1 = 201.
Proof.
  assert (Hfresh : objects (FeatureFlagRepository.new ∅) !! r0 = None) by reflexivity.
  eapply (proj2 (proj1 (proj2
            (create_answers (FeatureFlagRepository.new ∅) _
               (FeatureFlag.toJSON (flag_with "id1" "f1" [])) r0 "fresh" 98 99 no_fresh
               9 "/" _ Hfresh (surjective_pairing _))))).
  exists (flag_with "id1" "f1" []). repeat split; reflexivity.
Defined.

(** X27. For a stored flag the evaluate handler always answers 200, with the
    name of the flag and the decision of the engine: with a context whose
    [userId] or [tenantId] is empty or missing it reports the flag's default
    and no matched rule; otherwise it reports the first rule that matches
    and enabled, or the flag's default when none matches. *)
Theorem evaluate_answers (σ : State) (id : string) (r : ref) (flag : FeatureFlag.t)
    (context : EvaluationContext.t) (startTime endTime timestamp : Z) (path : string) :
  JsMap.get id (flags σ) = Some r ->
  objects σ !! r = Some flag ->
  evaluateFeatureFlag id context startTime endTime timestamp path σ
  = {| status := 200;
       body :=
         if truthy (EvaluationContext.userId context)
            && truthy (EvaluationContext.tenantId context)
         then
           match snd (_evaluateRules (FeatureFlag.rules flag) context) with
           | Some rule => EvaluationBody (FeatureFlag.name flag) (Some (Rule.toJSON rule)) true
           | None => EvaluationBody (FeatureFlag.name flag) None (FeatureFlag.enabled flag)
           end
         else EvaluationBody (FeatureFlag.name flag) None (FeatureFlag.enabled flag) |}.
Proof.
  intros Hget Hobj. unfold evaluateFeatureFlag, findById. rewrite Hget, Hobj.
  rewrite evaluate_objects. simpl.
  destruct (truthy (EvaluationContext.userId context)
            && truthy (EvaluationContext.tenantId context)); [|reflexivity].
  now destruct (snd (_evaluateRules (FeatureFlag.rules flag) context)).
Qed.

Lemma evaluate_answers_witness :
  evaluateFeatureFlag "f1" ctx_no_user 10 12 9 "/" st_created
  = {| status := 200; body := EvaluationBody "f1" None false |}.
Proof.
  apply (evaluate_answers st_created "f1" r0 (flag_with "id1" "f1" []) ctx_no_user
           10 12 9 "/"); reflexivity.
Defined.

(** X28. In a state of regular use (flags created with an id different
    from their name, updates that carry no id and whose new name, if any, is
    not empty, deletes by id), take a page that ends at or after the number
    [count] reports, but before twice that number. When [toJSON] of the
    flags on the page returns, [listFeatureFlags] answers 200 with [total]
    the number [count] reports and [hasMore] false, although the next page
    is not empty: [total] and [hasMore] come from [count], the data from
    [list], which holds every flag twice. *)
Theorem hasMore_misses_second_entries (σ : State) (search : option string)
    (offset limit timestamp : Z) (path : string) (data : Datatypes.list FlagData.t) :
  regular σ ->
  0 <= offset -> 0 < limit ->
  Z.of_nat (count (searching search) σ) <= offset + limit
    < 2 * Z.of_nat (count (searching search) σ) ->
  toJSON_each σ (list (page offset limit search) σ) = Normal data ->
  listFeatureFlags (page offset limit search) timestamp path σ
  = {| status := 200;
       body := ListBody data (count (searching search) σ) (Some limit) (Some offset)
                 false timestamp |}
  /\ length data = length (list (page offset limit search) σ)
  /\ list (page (offset + limit) limit search) σ <> [].
Proof.
  intros Hreg Ho Hl Hrange Hdata.
  pose proof (regular_listing_length σ search Hreg) as Hlen.
  split; [|split].
  - unfold listFeatureFlags. rewrite Hdata. unfold hasMore. simpl.
    change (count (page offset limit search) σ) with (count (searching search) σ).
    destruct (Z.ltb_spec (offset + limit) (Z.of_nat (count (searching search) σ)));
      [lia|reflexivity].
  - destruct (toJSON_each_listed σ _ (list_is_flag σ (page offset limit search)))
      as (data' & Hdata' & Hdlen).
    congruence.
  - rewrite list_page by lia. intros Hnil.
    apply (f_equal (@length ref)) in Hnil.
    rewrite length_take, length_drop, Hlen in Hnil. simpl in Hnil. lia.
Qed.

Lemma hasMore_misses_second_entries_witness :
  listFeatureFlags (page 0 1 None) 9 "/" st_renamed
  = {| status := 200;
       body := ListBody
                 [FeatureFlag.toJSON
                    (set_updatedAt
                       (Object_assign (flag_with "id1" "f1" []) (rename_to "f2")) 5)]
                 1 (Some 1) (Some 0) false 9 |}
  /\ list (page (0 + 1) 1 None) st_renamed <> [].
Proof.
  destruct (hasMore_misses_second_entries st_renamed None 0 1 9 "/"
              [FeatureFlag.toJSON
                 (set_updatedAt
                    (Object_assign (flag_with "id1" "f1" []) (rename_to "f2")) 5)]
              regular_st_renamed)
    as (Hanswer & _ & Hnext); [lia | lia | | reflexivity |].
  - vm_compute. split; [discriminate | reflexivity].
  - split; [exact Hanswer | exact Hnext].
Defined.
